(** * WhaleWatch: mempool aggregation, whale classification and fan-out

    A shallow embedding of [whalewatch_core.py] (class [WhaleWatch]) and of
    the event fan-out of [app.py].

    Conventions of the embedding:
    - Python [int] is [Z]; Python [float] is IEEE 754 binary64, taken from
      the standard library's executable model [spec_float] (53 bits of
      precision, exponent bound 1024, round to nearest even);
    - decoded JSON values are the inductive [JValue]; a [dict] is an
      association list whose first binding of a key is the live one;
    - a call either returns or raises: [res A] carries the raised exception;
    - the threads of the class interleave at the granularity of the regions
      guarded by [self._lock]; each handler is one function on the attribute
      record of the object and returns the list of callback invocations it
      made, in order. *)

From Stdlib Require Import ZArith List String Ascii Bool Lia SpecFloat.
From Stdlib Require Import Permutation.
Import ListNotations.
Open Scope string_scope.
Open Scope list_scope.
Open Scope Z_scope.

(** ** Python exceptions and results *)

(** The exception classes that the modelled code can meet.  [UserError]
    stands for any other subclass of [Exception]; [SystemExiting] for the
    classes that derive from [BaseException] only ([KeyboardInterrupt],
    [SystemExit], [GeneratorExit]). *)
Inductive exn : Type :=
| TypeError
| ValueError
| AttributeError
| OverflowError
| ZeroDivisionError
| KeyError
| UserError
| SystemExiting.

(** [isinstance(e, Exception)]. *)
Definition is_Exception (e : exn) : bool :=
  match e with
  | SystemExiting => false
  | _ => true
  end.

Inductive res (A : Type) : Type :=
| Ok (a : A)
| Raise (e : exn).
Arguments Ok {A} a.
Arguments Raise {A} e.

Definition bind {A B : Type} (r : res A) (k : A -> res B) : res B :=
  match r with
  | Ok a => k a
  | Raise e => Raise e
  end.

Notation "x <- r ;; k" := (bind r (fun x => k))
  (at level 100, r at next level, right associativity).

(** ** Floats *)

Module PyFloat.

Definition float : Type := spec_float.

Definition prec : Z := 53.
Definition emax : Z := 1024.

Definition zero : float := S754_zero false.

Definition is_zero (x : float) : bool :=
  match x with
  | S754_zero _ => true
  | _ => false
  end.

Definition is_finite (x : float) : bool :=
  match x with
  | S754_zero _ | S754_finite _ _ _ => true
  | _ => false
  end.

(** Conversion of an [int] operand to [float], as done by [int / float]
    and [float / int]: correctly rounded, [OverflowError] when the
    rounded magnitude is beyond the largest finite double. *)
Definition of_int (z : Z) : res float :=
  match binary_normalize prec emax z 0 false with
  | S754_infinity _ => Raise OverflowError
  | f => Ok f
  end.

(** [x / y] on floats: [ZeroDivisionError] on a zero divisor. *)
Definition truediv (x y : float) : res float :=
  if is_zero y then Raise ZeroDivisionError
  else Ok (SFdiv prec emax x y).

Definition mul (x y : float) : float := SFmul prec emax x y.

(** [x >= y]; false as soon as one side is NaN. *)
Definition ge (x y : float) : bool := SFleb y x.

Definition eqb (x y : float) : bool := SFeqb x y.

(** [bool(x)]: zero of either sign is falsy, NaN is truthy. *)
Definition truthy (x : float) : bool := negb (is_zero x).

(** [int(x)] on a float: truncation toward zero. *)
Definition trunc (x : float) : res Z :=
  match x with
  | S754_nan => Raise ValueError
  | S754_infinity _ => Raise OverflowError
  | S754_zero _ => Ok 0
  | S754_finite s m e =>
      let mag := Z.shiftl (Zpos m) e in
      Ok (if s then - mag else mag)
  end.

(** A float literal with an integral value, such as [100.0]. *)
Definition lit (z : Z) : float := binary_normalize prec emax z 0 false.

(** The literal [1e8]. *)
Definition f1e8 : float := Eval vm_compute in lit 100000000.

End PyFloat.

Abbreviation float := PyFloat.float.

(** ** Decoded JSON values *)

#[local] Set Warnings "-register-all".

Inductive JValue : Type :=
| JNone
| JBool (b : bool)
| JInt (z : Z)
| JFloat (f : float)
| JStr (s : string)
| JList (l : list JValue)
| JDict (d : list (string * JValue)).

Definition Dict : Type := list (string * JValue).

(** [d.get(k, default)] on a dict. *)
Fixpoint dict_get (d : Dict) (k : string) (default : JValue) : JValue :=
  match d with
  | [] => default
  | (k', v) :: d' => if String.eqb k' k then v else dict_get d' k default
  end.

(** [o.get(k, default)] on an arbitrary object: only a dict has [get]. *)
Definition py_get (o : JValue) (k : string) (default : JValue) : res JValue :=
  match o with
  | JDict d => Ok (dict_get d k default)
  | _ => Raise AttributeError
  end.

(** [for x in o]: the items a [for] loop visits. *)
Definition py_iter (o : JValue) : res (list JValue) :=
  match o with
  | JList l => Ok l
  | JDict d => Ok (map (fun kv => JStr (fst kv)) d)
  | JStr s => Ok (map (fun c => JStr (String c EmptyString)) (list_ascii_of_string s))
  | _ => Raise TypeError
  end.

(** [bool(o)]. *)
Definition py_truthy (o : JValue) : bool :=
  match o with
  | JNone => false
  | JBool b => b
  | JInt z => negb (z =? 0)
  | JFloat f => PyFloat.truthy f
  | JStr s => match s with EmptyString => false | _ => true end
  | JList l => match l with [] => false | _ => true end
  | JDict d => match d with [] => false | _ => true end
  end.

(** ** The builtin [int] *)

Module PyInt.

(** ASCII whitespace accepted around the digits. *)
Definition is_space (c : ascii) : bool :=
  let n := N_of_ascii c in
  (N.leb 9 n && N.leb n 13)%bool || N.eqb n 32.

Definition digit_of (c : ascii) : option Z :=
  let n := N_of_ascii c in
  if (N.leb 48 n && N.leb n 57)%bool then Some (Z.of_N n - 48) else None.

Fixpoint lstrip (cs : list ascii) : list ascii :=
  match cs with
  | c :: cs' => if is_space c then lstrip cs' else cs
  | [] => []
  end.

Definition strip (cs : list ascii) : list ascii :=
  rev (lstrip (rev (lstrip cs))).

(** Digits in base ten, single underscores allowed between two digits.
    [need_digit] holds at the start and right after an underscore. *)
Fixpoint digits (cs : list ascii) (need_digit : bool) (acc : Z) (n : nat)
  : option (Z * nat) :=
  match cs with
  | [] => if need_digit then None else Some (acc, n)
  | c :: cs' =>
      if Ascii.eqb c "_"%char then
        if need_digit then None else digits cs' true acc n
      else
        match digit_of c with
        | Some d => digits cs' false (10 * acc + d) (S n)
        | None => None
        end
  end.

(** [sys.get_int_max_str_digits()], CPython's default. *)
Definition int_max_str_digits : nat := 4300.

(** A [str] is held as its UTF-8 bytes (a lone surrogate as its three
    bytes).  [decode] gives its code points; a byte that starts no well
    formed sequence gives [bad], which is no character. *)
Definition bad : N := 1114112.

Definition is_cont (c : ascii) : bool :=
  let n := N_of_ascii c in (N.leb 128 n && N.ltb n 192)%bool.

Definition cont (c : ascii) : N := (N_of_ascii c - 128)%N.

Fixpoint decode (bs : list ascii) : list N :=
  match bs with
  | [] => []
  | b :: rest =>
      let n := N_of_ascii b in
      if N.ltb n 128 then n :: decode rest
      else
        match rest with
        | c1 :: rest1 =>
            if (N.leb 192 n && N.ltb n 224 && is_cont c1)%bool then
              let cp := ((n - 192) * 64 + cont c1)%N in
              (if N.leb 128 cp then cp else bad) :: decode rest1
            else
              match rest1 with
              | c2 :: rest2 =>
                  if (N.leb 224 n && N.ltb n 240 && is_cont c1 && is_cont c2)%bool then
                    let cp := ((n - 224) * 4096 + cont c1 * 64 + cont c2)%N in
                    (if N.leb 2048 cp then cp else bad) :: decode rest2
                  else
                    match rest2 with
                    | c3 :: rest3 =>
                        if (N.leb 240 n && N.ltb n 248
                            && is_cont c1 && is_cont c2 && is_cont c3)%bool then
                          let cp := ((n - 240) * 262144 + cont c1 * 4096
                                     + cont c2 * 64 + cont c3)%N in
                          (if (N.leb 65536 cp && N.ltb cp bad)%bool then cp else bad)
                            :: decode rest3
                        else bad :: decode rest
                    | [] => bad :: decode rest
                    end
              | [] => bad :: decode rest
              end
        | [] => [bad]
        end
  end.

(** The first code point of each run of ten decimal digits (Unicode
    14.0, the database of CPython 3.11). *)
Definition decimal_starts : list N :=
  [
    48; 1632; 1776; 1984; 2406; 2534; 2662; 2790;
    2918; 3046; 3174; 3302; 3430; 3558; 3664; 3792;
    3872; 4160; 4240; 6112; 6160; 6470; 6608; 6784;
    6800; 6992; 7088; 7232; 7248; 42528; 43216; 43264;
    43472; 43504; 43600; 44016; 65296; 66720; 68912; 69734;
    69872; 69942; 70096; 70384; 70736; 70864; 71248; 71360;
    71472; 71904; 72016; 72784; 73040; 73120; 92768; 92864;
    93008; 120782; 120792; 120802; 120812; 120822; 123200; 123632;
    125264; 130032
  ]%N.

(** [Py_UNICODE_TODECIMAL]. *)
Definition decimal_of (cp : N) : option N :=
  match find (fun s => (N.leb s cp && N.ltb cp (s + 10))%bool) decimal_starts with
  | Some s => Some (cp - s)%N
  | None => None
  end.

(** [Py_UNICODE_ISSPACE] above the ASCII range. *)
Definition is_unicode_space (cp : N) : bool :=
  (N.eqb cp 133 || N.eqb cp 160 || N.eqb cp 5760
   || (N.leb 8192 cp && N.leb cp 8202)
   || N.eqb cp 8232 || N.eqb cp 8233 || N.eqb cp 8239 || N.eqb cp 8287
   || N.eqb cp 12288)%bool.

(** What [int] makes of a character before it reads the digits: code
    points below 127 stay, a Unicode space becomes a blank, a Unicode
    decimal digit its ASCII digit, anything else a question mark. *)
Definition to_ascii (cp : N) : ascii :=
  if N.ltb cp 127 then ascii_of_N cp
  else if is_unicode_space cp then " "%char
  else match decimal_of cp with
       | Some d => ascii_of_N (48 + d)
       | None => "?"%char
       end.

Definition normalize (s : string) : list ascii :=
  map to_ascii (decode (list_ascii_of_string s)).

(** [int(s)] on a string. *)
Definition of_string (s : string) : res Z :=
  let body := strip (normalize s) in
  let '(neg, ds) :=
    match body with
    | c :: rest =>
        if Ascii.eqb c "-"%char then (true, rest)
        else if Ascii.eqb c "+"%char then (false, rest)
        else (false, body)
    | [] => (false, body)
    end in
  match digits ds true 0 0%nat with
  | Some (v, n) =>
      if Nat.ltb int_max_str_digits n then Raise ValueError
      else Ok (if neg then - v else v)
  | None => Raise ValueError
  end.

(** [int(v)]. *)
Definition int (v : JValue) : res Z :=
  match v with
  | JNone => Raise TypeError
  | JBool b => Ok (if b then 1 else 0)
  | JInt z => Ok z
  | JFloat f => PyFloat.trunc f
  | JStr s => of_string s
  | JList _ => Raise TypeError
  | JDict _ => Raise TypeError
  end.

End PyInt.

(** ** Events handed to the callback *)

(** Payload of a ["whale"] event. *)
Record WhaleData : Type := mkWhaleData {
  w_hash : JValue;
  w_value_btc : float;
  w_value_usd : float;
  w_timestamp : JValue;
  w_address : JValue
}.

(** Payload of a ["summary"] event. *)
Record SummaryData : Type := mkSummaryData {
  s_count : Z;
  s_total_btc : float;
  s_avg_btc : float;
  s_total_usd : float;
  s_avg_usd : float;
  s_whales : Z;
  s_timestamp : float
}.

(** Payload of a ["block"] event. *)
Record BlockData : Type := mkBlockData {
  b_height : JValue;
  b_n_tx : JValue;
  b_timestamp : float
}.

(** Payload of the ["config"] event published by the web front end. *)
Record ConfigData : Type := mkConfigData {
  c_threshold : float;
  c_interval : Z
}.

(** One invocation [callback(event_type, data)]. *)
Inductive Event : Type :=
| Whale (d : WhaleData)
| Summary (d : SummaryData)
| Block (d : BlockData)
| Config (d : ConfigData).

Definition event_type (ev : Event) : string :=
  match ev with
  | Whale _ => "whale"
  | Summary _ => "summary"
  | Block _ => "block"
  | Config _ => "config"
  end.

(** A callback returns ([None]) or raises.  It is assumed not to reach back
    into the attributes of the object that calls it. *)
Definition Callback : Type := Event -> option exn.

(** [try: cb(...) except Exception: pass]. *)
Definition try_callback (cb : Callback) (ev : Event) : option exn :=
  match cb ev with
  | Some e => if is_Exception e then None else Some e
  | None => None
  end.

(** ** The class [WhaleWatch] *)

(** The attributes of an instance. *)
Record WhaleWatch : Type := mkWhaleWatch {
  threshold_btc : float;
  summary_interval : Z;
  callback : option Callback;
  _unconfirmed_count : Z;
  _total_value_sat : Z;
  _whale_count : Z;
  _price_usd : option float;
  _stop_event : bool
}.

(** What a method call did: the object afterwards, the callback
    invocations in order, and the exception that left the method, if any. *)
Record Run : Type := mkRun {
  after : WhaleWatch;
  calls : list Event;
  raised : option exn
}.

Definition _reset_stats (self : WhaleWatch) : WhaleWatch :=
  {| threshold_btc := threshold_btc self;
     summary_interval := summary_interval self;
     callback := callback self;
     _unconfirmed_count := 0;
     _total_value_sat := 0;
     _whale_count := 0;
     _price_usd := _price_usd self;
     _stop_event := _stop_event self |}.

(** [__init__]. *)
Definition init (threshold : float) (interval : Z) (cb : option Callback)
  : WhaleWatch :=
  {| threshold_btc := threshold;
     summary_interval := interval;
     callback := cb;
     _unconfirmed_count := 0;
     _total_value_sat := 0;
     _whale_count := 0;
     _price_usd := None;
     _stop_event := false |}.

(** One round of [_price_loop]: [fetched] is what [_fetch_price] returned. *)
Definition price_tick (fetched : option float) (self : WhaleWatch)
  : WhaleWatch :=
  match fetched with
  | Some price =>
      {| threshold_btc := threshold_btc self;
         summary_interval := summary_interval self;
         callback := callback self;
         _unconfirmed_count := _unconfirmed_count self;
         _total_value_sat := _total_value_sat self;
         _whale_count := _whale_count self;
         _price_usd := Some price;
         _stop_event := _stop_event self |}
  | None => self
  end.

(** [self._price_usd or 0.0]. *)
Definition price_or_zero (p : option float) : float :=
  match p with
  | Some x => if PyFloat.truthy x then x else PyFloat.zero
  | None => PyFloat.zero
  end.

(** *** [_handle_unconfirmed_tx] *)

(** [int(out.get("value", 0))]. *)
Definition output_int (out : JValue) : res Z :=
  v <- py_get out "value" (JInt 0) ;; PyInt.int v.

(** The [for out in outputs] loop with its [try ... except (TypeError,
    ValueError): continue]; [total_sat] is the running total. *)
Fixpoint sum_outputs (outs : list JValue) (total_sat : Z) : res Z :=
  match outs with
  | [] => Ok total_sat
  | out :: rest =>
      match output_int out with
      | Ok n => sum_outputs rest (total_sat + n)
      | Raise TypeError => sum_outputs rest total_sat
      | Raise ValueError => sum_outputs rest total_sat
      | Raise e => Raise e
      end
  end.

(** [o[0]]. *)
Definition py_getitem0 (o : JValue) : res JValue :=
  match o with
  | JList (x :: _) => Ok x
  | JStr (String c _) => Ok (JStr (String c EmptyString))
  | JDict _ => Raise KeyError
  | _ => Raise TypeError
  end.

(** The locals computed before the lock is taken. *)
Record TxLocals : Type := mkTxLocals {
  total_sat : Z;
  total_btc : float;
  first_addr : JValue;
  timestamp : JValue;
  tx_hash : JValue
}.

(** [outputs[0].get("addr") if outputs else None]. *)
Definition first_output_addr (outputs : JValue) : res JValue :=
  if py_truthy outputs
  then (o <- py_getitem0 outputs ;; py_get o "addr" JNone)
  else Ok JNone.

Definition tx_locals (tx : JValue) : res TxLocals :=
  outputs <- py_get tx "out" (JList []) ;;
  items <- py_iter outputs ;;
  total_sat <- sum_outputs items 0 ;;
  fsat <- PyFloat.of_int total_sat ;;
  total_btc <- PyFloat.truediv fsat PyFloat.f1e8 ;;
  first_addr <- first_output_addr outputs ;;
  timestamp <- py_get tx "time" JNone ;;
  tx_hash <- py_get tx "hash" JNone ;;
  Ok (mkTxLocals total_sat total_btc first_addr timestamp tx_hash).

(** The payload built for a whale. *)
Definition whale_event (self : WhaleWatch) (l : TxLocals) : Event :=
  Whale {| w_hash := tx_hash l;
           w_value_btc := total_btc l;
           w_value_usd := PyFloat.mul (price_or_zero (_price_usd self)) (total_btc l);
           w_timestamp := timestamp l;
           w_address := first_addr l |}.

(** The attribute updates of the locked region. *)
Definition count_tx (self : WhaleWatch) (l : TxLocals) (whale : bool)
  : WhaleWatch :=
  {| threshold_btc := threshold_btc self;
     summary_interval := summary_interval self;
     callback := callback self;
     _unconfirmed_count := _unconfirmed_count self + 1;
     _total_value_sat := _total_value_sat self + total_sat l;
     _whale_count := if whale then _whale_count self + 1 else _whale_count self;
     _price_usd := _price_usd self;
     _stop_event := _stop_event self |}.

Definition _handle_unconfirmed_tx (self : WhaleWatch) (tx : JValue) : Run :=
  match tx_locals tx with
  | Raise e => mkRun self [] (Some e)
  | Ok l =>
      if PyFloat.ge (total_btc l) (threshold_btc self) then
        let self' := count_tx self l true in
        match callback self' with
        | Some cb =>
            let ev := whale_event self' l in
            mkRun self' [ev] (try_callback cb ev)
        | None => mkRun self' [] None
        end
      else mkRun (count_tx self l false) [] None
  end.

(** *** [_handle_new_block]; [now] is [datetime.now().timestamp()]. *)
Definition _handle_new_block (now : float) (self : WhaleWatch) (block : JValue)
  : Run :=
  match (height <- py_get block "height" JNone ;;
         n_tx <- py_get block "nTx" JNone ;;
         Ok (Block {| b_height := height; b_n_tx := n_tx; b_timestamp := now |}))
  with
  | Raise e => mkRun self [] (Some e)
  | Ok ev =>
      match callback self with
      | Some cb => mkRun self [ev] (try_callback cb ev)
      | None => mkRun self [] None
      end
  end.

(** *** [_on_message], from the decoded message on (a message that does
    not decode is dropped before this point) *)
Definition _on_message (now : float) (self : WhaleWatch) (data : JValue) : Run :=
  match py_get data "op" JNone with
  | Raise e => mkRun self [] (Some e)
  | Ok (JStr op) =>
      if String.eqb op "utx" then
        match py_get data "x" (JDict []) with
        | Ok x => _handle_unconfirmed_tx self x
        | Raise e => mkRun self [] (Some e)
        end
      else if String.eqb op "block" then
        match py_get data "x" (JDict []) with
        | Ok x => _handle_new_block now self x
        | Raise e => mkRun self [] (Some e)
        end
      else mkRun self [] None
  | Ok _ => mkRun self [] None
  end.

(** *** [_summary_loop] *)

(** The payload of a summary, from the snapshot taken under the lock. *)
Definition summary_data (now : float) (count total_sat whale_count : Z)
  (price_usd : option float) : res SummaryData :=
  fsat <- PyFloat.of_int total_sat ;;
  total_btc <- PyFloat.truediv fsat PyFloat.f1e8 ;;
  fcount <- PyFloat.of_int count ;;
  avg_btc <- PyFloat.truediv total_btc fcount ;;
  let price := price_or_zero price_usd in
  Ok {| s_count := count;
        s_total_btc := total_btc;
        s_avg_btc := avg_btc;
        s_total_usd := PyFloat.mul total_btc price;
        s_avg_usd := PyFloat.mul avg_btc price;
        s_whales := whale_count;
        s_timestamp := now |}.

(** The body of the [while] loop, after the sleep.  [raised = None] means
    the body ran to its end or hit [continue]: the loop goes on to test
    its condition again.  The price and the callback are read after the
    lock is released; the body is taken as one step all the same. *)
Definition summary_cycle (now : float) (self : WhaleWatch) : Run :=
  let count := _unconfirmed_count self in
  let total_sat := _total_value_sat self in
  let whale_count := _whale_count self in
  let self' := _reset_stats self in
  if count =? 0 then mkRun self' [] None
  else
    match summary_data now count total_sat whale_count (_price_usd self') with
    | Raise e => mkRun self' [] (Some e)
    | Ok d =>
        match callback self' with
        | Some cb => mkRun self' [Summary d] (try_callback cb (Summary d))
        | None => mkRun self' [] None
        end
    end.

(** *** Dynamic configuration *)

Definition set_threshold (self : WhaleWatch) (t : float) : WhaleWatch :=
  {| threshold_btc := t;
     summary_interval := summary_interval self;
     callback := callback self;
     _unconfirmed_count := _unconfirmed_count self;
     _total_value_sat := _total_value_sat self;
     _whale_count := _whale_count self;
     _price_usd := _price_usd self;
     _stop_event := _stop_event self |}.

Definition set_interval (self : WhaleWatch) (i : Z) : WhaleWatch :=
  {| threshold_btc := threshold_btc self;
     summary_interval := i;
     callback := callback self;
     _unconfirmed_count := _unconfirmed_count self;
     _total_value_sat := _total_value_sat self;
     _whale_count := _whale_count self;
     _price_usd := _price_usd self;
     _stop_event := _stop_event self |}.

Definition update_threshold (self : WhaleWatch) (threshold : float)
  : WhaleWatch := set_threshold self threshold.

Definition update_interval (self : WhaleWatch) (interval : Z)
  : WhaleWatch := set_interval self interval.

(** [update_config(threshold_btc=None, summary_interval=None)]. *)
Definition update_config (self : WhaleWatch)
  (threshold : option float) (interval : option Z) : WhaleWatch :=
  let self1 := match threshold with
               | Some t => set_threshold self t
               | None => self
               end in
  match interval with
  | Some i => set_interval self1 i
  | None => self1
  end.

(** [stop]. *)
Definition stop (self : WhaleWatch) : WhaleWatch :=
  {| threshold_btc := threshold_btc self;
     summary_interval := summary_interval self;
     callback := callback self;
     _unconfirmed_count := _unconfirmed_count self;
     _total_value_sat := _total_value_sat self;
     _whale_count := _whale_count self;
     _price_usd := _price_usd self;
     _stop_event := true |}.

(** *** The object under its threads *)

(** What the threads other than the summary thread do to the object: the
    WebSocket thread delivers transactions and blocks, the price thread
    stores a price, a request handler reconfigures or stops. *)
Inductive Op : Type :=
| Utx (tx : JValue)
| NewBlock (now : float) (block : JValue)
| PriceTick (fetched : option float)
| UpdateThreshold (threshold : float)
| UpdateInterval (interval : Z)
| UpdateConfig (threshold : option float) (interval : option Z)
| Stop.

Definition apply_op (self : WhaleWatch) (op : Op) : Run :=
  match op with
  | Utx tx => _handle_unconfirmed_tx self tx
  | NewBlock now block => _handle_new_block now self block
  | PriceTick fetched => mkRun (price_tick fetched self) [] None
  | UpdateThreshold t => mkRun (update_threshold self t) [] None
  | UpdateInterval i => mkRun (update_interval self i) [] None
  | UpdateConfig t i => mkRun (update_config self t i) [] None
  | Stop => mkRun (stop self) [] None
  end.

(** A sequence of such calls.  An exception that leaves a handler ends
    that call only; the object stays as the handler left it. *)
Fixpoint run_ops (ops : list Op) (self : WhaleWatch) : WhaleWatch * list Event :=
  match ops with
  | [] => (self, [])
  | op :: rest =>
      let r := apply_op self op in
      let '(self', evs) := run_ops rest (after r) in
      (self', calls r ++ evs)
  end.

(** [time.sleep(secs)] on an [int]: the exception it raises instead of
    waiting.  A length whose nanoseconds do not fit 64 bits is refused
    with [OverflowError], a negative one with [ValueError]; any other
    length is taken to elapse (an operating system may still refuse a
    length of centuries). *)
Definition time_sleep (secs : Z) : option exn :=
  if (secs <? -9223372036) || (9223372036 <? secs) then Some OverflowError
  else if secs <? 0 then Some ValueError
  else None.

(** [_summary_loop].  Each entry of the schedule is one iteration: what
    the other threads do during [time.sleep], and the clock read when the
    payload is built.  The interval is read when the sleep starts.  The
    result carries the exception that killed the thread, if one did. *)
Fixpoint _summary_loop (schedule : list (list Op * float)) (self : WhaleWatch)
  : WhaleWatch * list Event * option exn :=
  match schedule with
  | [] => (self, [], None)
  | (during_sleep, now) :: rest =>
      if _stop_event self then (self, [], None)
      else
        match time_sleep (summary_interval self) with
        | Some e => (self, [], Some e)
        | None =>
            let '(self1, evs1) := run_ops during_sleep self in
            let r := summary_cycle now self1 in
            match raised r with
            | Some e => (after r, evs1 ++ calls r, Some e)
            | None =>
                let '(self2, evs2, e) := _summary_loop rest (after r) in
                (self2, evs1 ++ calls r ++ evs2, e)
            end
        end
  end.

(** The states an instance can be in. *)
Inductive reachable : WhaleWatch -> Prop :=
| reach_init : forall threshold interval cb,
    reachable (init threshold interval cb)
| reach_op : forall self op,
    reachable self -> reachable (after (apply_op self op))
| reach_summary : forall self now,
    reachable self -> reachable (after (summary_cycle now self)).

(** ** The web front end ([app.py]) *)

(** A [queue.Queue]: [maxsize <= 0] means unbounded. *)
Record Queue : Type := mkQueue {
  maxsize : Z;
  items : list Event
}.

Definition qsize (q : Queue) : Z := Z.of_nat (List.length (items q)).

Definition full (q : Queue) : bool :=
  (0 <? maxsize q) && (maxsize q <=? qsize q).

(** [q.put(item, timeout=0.1)] with no consumer taking from [q] during
    the wait: [None] is [queue.Full], raised when the timeout expires. *)
Definition put (q : Queue) (item : Event) : option Queue :=
  if full q then None
  else Some {| maxsize := maxsize q; items := items q ++ [item] |}.

(** [broadcast_event]: the queues afterwards, and the number of [put]
    calls that waited out their timeout. *)
Fixpoint broadcast_event (ev : Event) (client_queues : list Queue)
  : list Queue * nat :=
  match client_queues with
  | [] => ([], 0%nat)
  | q :: rest =>
      let '(rest', waits) := broadcast_event ev rest in
      match put q ev with
      | Some q' => (q' :: rest', waits)
      | None => (q :: rest', S waits)
      end
  end.

(** The queue created by [stream] for a new client. *)
Definition new_client_queue : Queue := {| maxsize := 100; items := [] |}.

(** The module-level state. *)
Record App : Type := mkApp {
  watcher : option WhaleWatch;
  client_queues : list Queue
}.

(** [start_watcher]: the callback of the instance is [broadcast_event],
    which returns. *)
Definition broadcast_callback : Callback := fun _ => None.

Definition start_watcher (threshold : float) (interval : Z) : WhaleWatch :=
  init threshold interval (Some broadcast_callback).

(** The [POST] branch of [config_endpoint], from the converted values on. *)
Definition config_post (app : App)
  (threshold_val : option float) (interval_val : option Z)
  : App * option (float * Z) :=
  match watcher app with
  | None => (app, None)
  | Some w =>
      let w' := update_config w threshold_val interval_val in
      let effective_threshold := threshold_btc w' in
      let effective_interval := summary_interval w' in
      let ev := Config {| c_threshold := effective_threshold;
                          c_interval := effective_interval |} in
      ({| watcher := Some w';
          client_queues := fst (broadcast_event ev (client_queues app)) |},
       Some (effective_threshold, effective_interval))
  end.

(** The [GET] branch. *)
Definition config_get (app : App) : option (float * Z) :=
  match watcher app with
  | None => None
  | Some w => Some (threshold_btc w, summary_interval w)
  end.

(** The names bound on a [WhaleWatch] instance, besides those every
    Python object inherits: the attributes assigned by [__init__] and
    [_reset_stats], and the methods of the class. *)
Definition whalewatch_attributes : list string :=
  [ "threshold_btc"; "summary_interval"; "callback"; "_lock";
    "_unconfirmed_count"; "_total_value_sat"; "_whale_count";
    "_price_usd"; "_stop_event";
    "__init__"; "_reset_stats"; "_fetch_price"; "_price_loop"; "_on_open";
    "_on_message"; "_handle_unconfirmed_tx"; "_handle_new_block";
    "_summary_loop"; "update_threshold"; "update_interval";
    "update_config"; "_run_ws"; "start"; "stop" ].

(** [hasattr(watcher, name)]. *)
Definition hasattr (name : string) : bool :=
  existsb (String.eqb name) whalewatch_attributes.

(** [watcher.name()] for a method returning a [bool]: none of the methods
    of the class does, so the lookup fails. *)
Definition call_bool_method (w : WhaleWatch) (name : string) : res bool :=
  Raise AttributeError.

(** [health_check]: status text and HTTP code. *)
Definition health_check (app : App) : string * Z :=
  match watcher app with
  | Some w =>
      if hasattr "is_running" then
        match call_bool_method w "is_running" with
        | Ok true => ("healthy", 200)
        | Ok false => ("degraded", 200)
        | Raise _ => ("error", 500)
        end
      else ("starting", 200)
  | None => ("starting", 200)
  end.

(** ** Declarative readings used by the statements *)

Definition zsum (l : list Z) : Z := fold_right Z.add 0 l.

(** The integers contributed by the outputs that convert, in order. *)
Definition parsed_values (outs : list JValue) : list Z :=
  flat_map (fun out => match output_int out with
                       | Ok n => [n]
                       | Raise _ => []
                       end) outs.

(** An output is skipped when its conversion raises [TypeError] or
    [ValueError]. *)
Definition skipped (out : JValue) : bool :=
  match output_int out with
  | Raise TypeError | Raise ValueError => true
  | _ => false
  end.

(** An output record whose value is no infinite float: its conversion
    raises nothing but [TypeError] or [ValueError]. *)
Definition well_formed_output (out : JValue) : bool :=
  match out with
  | JDict d =>
      match dict_get d "value" (JInt 0) with
      | JFloat (S754_infinity _) => false
      | _ => true
      end
  | _ => false
  end.

(** The integer has a finite double nearest to it. *)
Definition in_float_range (z : Z) : bool :=
  match PyFloat.of_int z with
  | Ok _ => true
  | Raise _ => false
  end.

(** The items of [tx.get("out", [])], empty when there are none to visit. *)
Definition tx_outputs (tx : JValue) : list JValue :=
  match (outputs <- py_get tx "out" (JList []) ;; py_iter outputs) with
  | Ok items => items
  | Raise _ => []
  end.

(** The handler reaches its locked region on [tx]. *)
Definition processed (tx : JValue) : bool :=
  match tx_locals tx with
  | Ok _ => true
  | Raise _ => false
  end.

(** The transactions delivered by a sequence of calls. *)
Definition utx_of (ops : list Op) : list JValue :=
  flat_map (fun op => match op with
                      | Utx tx => [tx]
                      | _ => []
                      end) ops.

(** The attributes that no handler writes. *)
Definition same_config (a b : WhaleWatch) : Prop :=
  threshold_btc a = threshold_btc b
  /\ summary_interval a = summary_interval b
  /\ callback a = callback b
  /\ _price_usd a = _price_usd b
  /\ _stop_event a = _stop_event b.

(** The parsed output values of the transactions that were processed. *)
Definition interval_values (ops : list Op) : list Z :=
  flat_map (fun tx => parsed_values (tx_outputs tx))
           (filter processed (utx_of ops)).

(** The states in which an interval starts: a new object, or the object
    as a summary cycle leaves it. *)
Inductive interval_start : WhaleWatch -> Prop :=
| start_init : forall threshold interval cb,
    interval_start (init threshold interval cb)
| start_cycle : forall now self,
    interval_start (after (summary_cycle now self)).

(** The object after the iterations of a schedule of the summary loop. *)
Fixpoint after_cycles (schedule : list (list Op * float)) (self : WhaleWatch)
  : WhaleWatch :=
  match schedule with
  | [] => self
  | (during_sleep, now) :: rest =>
      after_cycles rest (after (summary_cycle now (fst (run_ops during_sleep self))))
  end.

(** Every iteration of the schedule ends without an emission, and
    without an exception that would end the thread. *)
Fixpoint quiet_cycles (schedule : list (list Op * float)) (self : WhaleWatch)
  : Prop :=
  match schedule with
  | [] => True
  | (during_sleep, now) :: rest =>
      let r := summary_cycle now (fst (run_ops during_sleep self)) in
      calls r = [] /\ raised r = None /\ quiet_cycles rest (after r)
  end.

(** The loop runs through the schedule: no iteration starts with the
    stop flag set, no sleep and no cycle raises. *)
Fixpoint loop_runs (schedule : list (list Op * float)) (self : WhaleWatch)
  : Prop :=
  match schedule with
  | [] => True
  | (during_sleep, now) :: rest =>
      let r := summary_cycle now (fst (run_ops during_sleep self)) in
      _stop_event self = false
      /\ time_sleep (summary_interval self) = None
      /\ raised r = None /\ loop_runs rest (after r)
  end.

(** The calls made by the other threads over a whole schedule. *)
Definition schedule_ops (schedule : list (list Op * float)) : list Op :=
  flat_map fst schedule.

(** What [broadcast_event] leaves in a queue. *)
Definition delivered (ev : Event) (q : Queue) : Queue :=
  if full q then q else {| maxsize := maxsize q; items := items q ++ [ev] |}.

(** The whale count lies between 0 and the transaction count. *)
Definition counters_ok (self : WhaleWatch) : Prop :=
  0 <= _whale_count self <= _unconfirmed_count self.



(** Readings that follow the words of the specification. *)
Module Spec.

(** "an output whose value parses as a non-negative integer". *)
Definition nonneg_values (outs : list JValue) : list Z :=
  filter (fun n => 0 <=? n) (parsed_values outs).

(** "a transaction with at least one parseable output value". *)
Definition has_parseable_output (tx : JValue) : bool :=
  match parsed_values (tx_outputs tx) with
  | [] => false
  | _ => true
  end.

End Spec.

(** ** Concrete data for the examples *)

Module Ex.

Definition output (v : JValue) : JValue := JDict [("value", v)].

Definition tx_of (outs : list JValue) : JValue :=
  JDict [("hash", JStr "ab12"); ("time", JInt 1700000000); ("out", JList outs)].

(** A transaction paying [btc] whole coins to the address ["1A"]. *)
Definition tx_btc (btc : Z) : JValue :=
  tx_of [JDict [("addr", JStr "1A"); ("value", JInt (btc * 100000000))]].

Definition tx_no_outputs : JValue := tx_of [].

Definition tx_negative : JValue := tx_of [output (JInt (-5)); output (JInt 7)].

Definition tx_mixed : JValue := tx_of [output (JStr "x"); output (JInt 500000000)].


Definition watch (cb : option Callback) : WhaleWatch :=
  init (PyFloat.lit 100) 60 cb.

Definition now : float := PyFloat.lit 1700000060.

(** Three transactions of 50, 150 and 100 coins. *)
Definition interval_ops : list Op :=
  [Utx (tx_btc 50); Utx (tx_btc 150); Utx (tx_btc 100)].

(** The object when the summary thread wakes after [ops]. *)
Definition at_wake (cb : option Callback) (ops : list Op) : WhaleWatch :=
  fst (run_ops ops (watch cb)).

(** The payload of the summary that closes [ops]. *)
Definition summary_of (ops : list Op) : res SummaryData :=
  let self := at_wake None ops in
  summary_data now (_unconfirmed_count self) (_total_value_sat self)
    (_whale_count self) (_price_usd self).

Definition interval_summary : SummaryData :=
  Eval vm_compute in
    match summary_of interval_ops with
    | Ok d => d
    | Raise _ => mkSummaryData 0 PyFloat.zero PyFloat.zero PyFloat.zero PyFloat.zero 0 now
    end.

End Ex.

(** ** The price thread *)

(** What [requests.get] produced: a failure that [requests] reports as a
    [RequestException], or a response with its status code and its
    decoded body.  A body that does not decode is not represented. *)
Inductive HttpResult : Type :=
| RequestException
| Response (status_code : Z) (data : JValue).

Section FloatBuiltin.

(** [float(s)] on a string: the float, or [None] for [ValueError].  The
    decimal parser of the interpreter is a parameter of what follows. *)
Variable float_of_str : string -> option float.

(** [float(v)]. *)
Definition py_float (v : JValue) : res float :=
  match v with
  | JNone => Raise TypeError
  | JBool b => Ok (if b then PyFloat.lit 1 else PyFloat.zero)
  | JInt z => PyFloat.of_int z
  | JFloat f => Ok f
  | JStr s => match float_of_str s with
              | Some f => Ok f
              | None => Raise ValueError
              end
  | JList _ => Raise TypeError
  | JDict _ => Raise TypeError
  end.

(** [_fetch_price], from the outcome of the request on.  Only
    [RequestException] is caught. *)
Definition _fetch_price (r : HttpResult) : res (option float) :=
  match r with
  | RequestException => Ok None
  | Response status_code data =>
      if status_code =? 200 then
        bitcoin <- py_get data "bitcoin" (JDict []) ;;
        usd <- py_get bitcoin "usd" JNone ;;
        price <- py_float usd ;;
        Ok (Some price)
      else Ok None
  end.

(** [_price_loop] on its own: one request outcome per iteration.  The
    result carries the exception that ended the thread, if one did. *)
Fixpoint _price_loop (outcomes : list HttpResult) (self : WhaleWatch)
  : WhaleWatch * option exn :=
  match outcomes with
  | [] => (self, None)
  | r :: rest =>
      if _stop_event self then (self, None)
      else
        match _fetch_price r with
        | Raise e => (self, Some e)
        | Ok price => _price_loop rest (price_tick price self)
        end
  end.

(** The price a request outcome yields, when [_fetch_price] returns. *)
Definition fetched_of (r : HttpResult) : option float :=
  match _fetch_price r with
  | Ok price => price
  | Raise _ => None
  end.

Definition fetch_returns (r : HttpResult) : bool :=
  match _fetch_price r with
  | Ok _ => true
  | Raise _ => false
  end.

(** *** The conversions of [config_endpoint] *)

(** [threshold_val]: [float(new_threshold)] unless it is [None], with
    [ValueError] passed over. *)
Definition convert_threshold (new_threshold : JValue) : res (option float) :=
  match new_threshold with
  | JNone => Ok None
  | _ =>
      match py_float new_threshold with
      | Ok f => Ok (Some f)
      | Raise ValueError => Ok None
      | Raise e => Raise e
      end
  end.

(** [interval_val], likewise with [int]. *)
Definition convert_interval (new_interval : JValue) : res (option Z) :=
  match new_interval with
  | JNone => Ok None
  | _ =>
      match PyInt.int new_interval with
      | Ok i => Ok (Some i)
      | Raise ValueError => Ok None
      | Raise e => Raise e
      end
  end.

(** [request.form] as the mapping its [get] reads: the first value of a
    key, always a string. *)
Definition form_data (form : list (string * string)) : JValue :=
  JDict (map (fun kv => (fst kv, JStr (snd kv))) form).

(** [request.get_json(force=True, silent=True) or request.form]; [json]
    is the decoded body, [None] when the body does not decode. *)
Definition request_data (json : option JValue) (form : list (string * string))
  : JValue :=
  match json with
  | Some j => if py_truthy j then j else form_data form
  | None => form_data form
  end.

(** [config_endpoint] on a [POST], with the request body and form. *)
Definition config_endpoint_post (app : App)
  (json : option JValue) (form : list (string * string))
  : res (App * option (float * Z)) :=
  match watcher app with
  | None => Ok (app, None)
  | Some _ =>
      let data := request_data json form in
      new_threshold <- py_get data "threshold" JNone ;;
      new_interval <- py_get data "interval" JNone ;;
      threshold_val <- convert_threshold new_threshold ;;
      interval_val <- convert_interval new_interval ;;
      Ok (config_post app threshold_val interval_val)
  end.

End FloatBuiltin.

(** The same object with another cached price. *)
Definition with_price (self : WhaleWatch) (p : option float) : WhaleWatch :=
  {| threshold_btc := threshold_btc self;
     summary_interval := summary_interval self;
     callback := callback self;
     _unconfirmed_count := _unconfirmed_count self;
     _total_value_sat := _total_value_sat self;
     _whale_count := _whale_count self;
     _price_usd := p;
     _stop_event := _stop_event self |}.

(** The price cached after a run of fetches: the last one that gave a
    price, the earlier value when none did. *)
Definition last_price (fetched : list (option float)) (cached : option float)
  : option float :=
  fold_left (fun p f => match f with
                        | Some x => Some x
                        | None => p
                        end) fetched cached.

(** ** The subscribers of [stream] *)

(** [client_queues] with the identity of each queue object: [remove]
    compares queues by identity. *)
Definition Registry : Type := list (nat * Queue).

(** What the generator yields. *)
Inductive Frame : Type :=
| Hello
| Keepalive
| EventFrame (ev : Event).

(** [q.get(timeout=1.0)] with no producer putting during the wait:
    [None] is [queue.Empty]. *)
Definition get (q : Queue) : option (Event * Queue) :=
  match items q with
  | [] => None
  | ev :: rest => Some (ev, {| maxsize := maxsize q; items := rest |})
  end.

(** The start of the generator: the new queue [h] joins the list, then
    the greeting is yielded. *)
Definition stream_connect (h : nat) (reg : Registry) : Frame * Registry :=
  (Hello, reg ++ [(h, new_client_queue)]).

(** One round of the generator's loop on its own queue. *)
Definition stream_next (q : Queue) : Frame * Queue :=
  match get q with
  | Some (ev, q') => (EventFrame ev, q')
  | None => (Keepalive, q)
  end.

(** The [finally] clause: [client_queues.remove(q)], [ValueError] passed
    over. *)
Fixpoint stream_close (h : nat) (reg : Registry) : Registry :=
  match reg with
  | [] => []
  | (h', q) :: rest =>
      if Nat.eqb h' h then rest else (h', q) :: stream_close h rest
  end.

(** The queue object [h], when it is in the list. *)
Fixpoint queue_of (h : nat) (reg : Registry) : option Queue :=
  match reg with
  | [] => None
  | (h', q) :: rest => if Nat.eqb h' h then Some q else queue_of h rest
  end.

(** [broadcast_event] on the list of queue objects. *)
Definition publish (ev : Event) (reg : Registry) : Registry :=
  combine (map fst reg) (fst (broadcast_event ev (map snd reg))).

(** A run of calls of [broadcast_event], oldest event first. *)
Definition broadcast_all (evs : list Event) (qs : list Queue) : list Queue :=
  fold_left (fun qs ev => fst (broadcast_event ev qs)) evs qs.

(** The frames of [n] rounds of the loop. *)
Fixpoint stream_frames (n : nat) (q : Queue) : list Frame :=
  match n with
  | O => []
  | S n' => fst (stream_next q) :: stream_frames n' (snd (stream_next q))
  end.

(** The room left in a queue for [n] more events. *)
Definition room (n : nat) (q : Queue) : nat :=
  if 0 <? maxsize q then Z.to_nat (maxsize q - qsize q) else n.

(** ** Readings for the further properties *)

(** The conversion of an output raises past the handler. *)
Definition aborts (out : JValue) : bool :=
  match output_int out with
  | Ok _ | Raise TypeError | Raise ValueError => false
  | Raise _ => true
  end.

(** The transaction is processed and meets the threshold. *)
Definition is_whale_at (threshold : float) (tx : JValue) : bool :=
  match tx_locals tx with
  | Ok l => PyFloat.ge (total_btc l) threshold
  | Raise _ => false
  end.

Definition is_whale_event (ev : Event) : bool :=
  match ev with
  | Whale _ => true
  | _ => false
  end.

(** The call leaves the threshold alone. *)
Definition keeps_threshold (op : Op) : bool :=
  match op with
  | UpdateThreshold _ => false
  | UpdateConfig (Some _) _ => false
  | _ => true
  end.

Definition is_block_event (ev : Event) : bool :=
  match ev with
  | Block _ => true
  | _ => false
  end.

Definition is_block_op (op : Op) : bool :=
  match op with
  | NewBlock _ _ => true
  | _ => false
  end.

(** [a or b] on optional parameters: the later value when given. *)
Definition or_else {A : Type} (later earlier : option A) : option A :=
  match later with
  | Some _ => later
  | None => earlier
  end.

(** ** Further concrete data *)

Module Ex2.


(** A parser that knows one literal. *)
Definition parse_fifty (s : string) : option float :=
  if String.eqb s "50" then Some (PyFloat.lit 50) else None.


Definition config_event (t : Z) (i : Z) : Event :=
  Config (mkConfigData (PyFloat.lit t) i).

Definition app (qs : list Queue) : App :=
  mkApp (Some (Ex.watch (Some broadcast_callback))) qs.


End Ex2.

(** ** Conversion of small integers to floats *)

Lemma digits2_pos_iter_xO (k p : positive) :
  digits2_pos (Pos.iter xO p k) = (digits2_pos p + k)%positive.
Proof.
  induction k as [|k IH] using Pos.peano_ind.
  - simpl. now rewrite Pos.add_1_r.
  - rewrite Pos.iter_succ; simpl. rewrite IH. now rewrite Pos.add_succ_r.
Qed.

Lemma digits2_pos_lower (p : positive) :
  2 ^ (Zpos (digits2_pos p) - 1) <= Zpos p.
Proof.
  induction p as [p IH|p IH|]; simpl digits2_pos; try (simpl; lia);
    rewrite Pos2Z.inj_succ;
    replace (Z.succ (Zpos (digits2_pos p)) - 1)
      with (Z.succ (Zpos (digits2_pos p) - 1)) by lia;
    rewrite Z.pow_succ_r by lia; lia.
Qed.

Lemma small_digits (p : positive) :
  Zpos p < 2 ^ 53 -> Zpos (digits2_pos p) <= 53.
Proof.
  intros H.
  destruct (Z_le_gt_dec (Zpos (digits2_pos p)) 53) as [|Hgt]; [assumption|].
  pose proof (digits2_pos_lower p) as Hl.
  assert (2 ^ 53 <= 2 ^ (Zpos (digits2_pos p) - 1))
    by (apply Z.pow_le_mono_r; lia).
  lia.
Qed.

(** A mantissa of exactly 53 bits is kept as it is. *)
Lemma round_aux_exact (s : bool) (m : positive) (e : Z) :
  Zpos (digits2_pos m) = 53 -> -1074 <= e <= 971 ->
  binary_round_aux 53 1024 s (Zpos m) e loc_Exact = S754_finite s m e.
Proof.
  intros Hd He.
  unfold binary_round_aux, shr_fexp, shr_record_of_loc. cbn [Zdigits2].
  rewrite Hd.
  assert (Hf : fexp 53 1024 (53 + e) - e = 0) by (unfold fexp, emin; lia).
  rewrite Hf. cbn [shr shr_m loc_of_shr_record round_nearest_even Zdigits2].
  rewrite Hd, Hf. cbn [shr shr_m].
  replace (e <=? 1024 - 53) with true by (symmetry; apply Z.leb_le; lia).
  reflexivity.
Qed.

Lemma binary_round_small (s : bool) (p : positive) :
  Zpos p < 2 ^ 53 ->
  exists m e, binary_round 53 1024 s p 0 = S754_finite s m e.
Proof.
  intros H. apply small_digits in H.
  unfold binary_round, shl_align.
  assert (Hf : fexp 53 1024 (Zpos (digits2_pos p) + 0) = Zpos (digits2_pos p) - 53)
    by (unfold fexp, emin; lia).
  rewrite Hf.
  destruct (Zpos (digits2_pos p) - 53 - 0) as [|d|d] eqn:Hd; try lia.
  - exists p, 0. apply round_aux_exact; lia.
  - exists (Pos.iter xO p d), (Zpos (digits2_pos p) - 53).
    apply round_aux_exact; [|lia].
    rewrite digits2_pos_iter_xO. lia.
Qed.

(** An integer below 2^53 in magnitude converts to a finite float, which
    is a zero only for the integer 0. *)
Lemma of_int_small (z : Z) :
  Z.abs z < 2 ^ 53 ->
  exists f, PyFloat.of_int z = Ok f
            /\ PyFloat.is_finite f = true
            /\ (z <> 0 -> PyFloat.is_zero f = false).
Proof.
  intros H. unfold PyFloat.of_int, PyFloat.prec, PyFloat.emax.
  destruct z as [|p|p]; cbn [binary_normalize].
  - eexists; repeat split. intros; lia.
  - destruct (binary_round_small false p) as (m & e & ->); [lia|].
    eexists; repeat split.
  - destruct (binary_round_small true p) as (m & e & ->); [lia|].
    eexists; repeat split.
Qed.









Lemma small_in_float_range (z : Z) :
  Z.abs z < 2 ^ 53 -> in_float_range z = true.
Proof.
  intros H. unfold in_float_range.
  now destruct (of_int_small z H) as (f & -> & _).
Qed.

(** ** The builtin conversions *)

Lemma of_string_cases (s : string) :
  (exists n, PyInt.of_string s = Ok n) \/ PyInt.of_string s = Raise ValueError.
Proof.
  unfold PyInt.of_string.
  destruct (PyInt.strip (PyInt.normalize s)) as [|c rest].
  - destruct (PyInt.digits [] true 0 0) as [[v n]|]; [|now right].
    destruct (Nat.ltb _ n); [now right | left; eauto].
  - destruct (Ascii.eqb c "-"); [|destruct (Ascii.eqb c "+")];
      match goal with
      | |- context [PyInt.digits ?l true 0 0%nat] =>
          destruct (PyInt.digits l true 0 0%nat) as [[v n]|]; [|now right];
          destruct (Nat.ltb PyInt.int_max_str_digits n); [now right | left; eauto]
      end.
Qed.

(** Digits outside ASCII convert as in Python: the bytes [217 163] encode
    U+0663, the Arabic-Indic digit three, and an output carrying that
    digit followed by [7] is summed as 37; a letter beside the digits is
    a [ValueError]. *)
Lemma of_string_unicode_digit :
  PyInt.of_string (String "217" (String "163" "7")) = Ok 37
  /\ output_int (JDict [("value", JStr (String "217" (String "163" "7")))]) = Ok 37
  /\ PyInt.of_string (String "217" (String "163" "x")) = Raise ValueError.
Proof. repeat split; vm_compute; reflexivity. Qed.

(** The conversion of a well-formed output either yields an integer or
    raises one of the two exceptions the loop catches. *)
Lemma output_int_cases (out : JValue) :
  well_formed_output out = true ->
  (exists n, output_int out = Ok n)
  \/ output_int out = Raise TypeError
  \/ output_int out = Raise ValueError.
Proof.
  destruct out as [| | | | | |d]; simpl; try discriminate.
  unfold output_int; simpl.
  destruct (dict_get d "value" (JInt 0)) as [|b|z|f|s|l|d']; simpl; intros H;
    eauto.
  - destruct f; simpl; try discriminate; eauto.
  - destruct (of_string_cases s) as [[n Hn]|Hn]; rewrite Hn; eauto.
Qed.

(** ** The loop over the outputs *)

Lemma sum_outputs_ok (outs : list JValue) :
  forall acc t,
    sum_outputs outs acc = Ok t -> t = acc + zsum (parsed_values outs).
Proof.
  induction outs as [|out rest IH]; simpl; intros acc t H.
  - injection H as <-. lia.
  - destruct (output_int out) as [n|e]; simpl.
    + apply IH in H. lia.
    + destruct e; try discriminate; apply IH in H; lia.
Qed.

Lemma sum_outputs_well_formed (outs : list JValue) :
  forallb well_formed_output outs = true ->
  forall acc, sum_outputs outs acc = Ok (acc + zsum (parsed_values outs)).
Proof.
  induction outs as [|out rest IH]; simpl; intros H acc.
  - f_equal; lia.
  - apply andb_true_iff in H as [Hout Hrest].
    destruct (output_int_cases out Hout) as [[n Hn]|[Hn|Hn]]; rewrite Hn; simpl;
      rewrite (IH Hrest); f_equal; lia.
Qed.

(** Each output is either summed or skipped, never both. *)
Lemma well_formed_summed_or_skipped (out : JValue) :
  well_formed_output out = true ->
  (exists n, output_int out = Ok n /\ skipped out = false)
  \/ (skipped out = true /\ parsed_values [out] = []).
Proof.
  intros H. unfold skipped, parsed_values; simpl.
  destruct (output_int_cases out H) as [[n Hn]|[Hn|Hn]]; rewrite Hn; eauto.
Qed.

(** ** The locals of [_handle_unconfirmed_tx] *)

Lemma first_output_addr_spec (outputs : JValue) (items : list JValue) (a : JValue) :
  py_iter outputs = Ok items ->
  first_output_addr outputs = Ok a ->
  match items with
  | [] => a = JNone
  | o :: _ => py_get o "addr" JNone = Ok a
  end.
Proof.
  unfold first_output_addr.
  destruct outputs as [| | | |s|l|d]; simpl; try discriminate.
  - destruct s as [|c s]; simpl; intros [= <-]; [now intros [= <-] | discriminate].
  - destruct l as [|o l]; simpl; intros [= <-]; [now intros [= <-] | auto].
  - destruct d as [|kv d]; simpl; intros [= <-]; [now intros [= <-] | discriminate].
Qed.

(** What the locals are when the code before the lock raises nothing. *)
Lemma tx_locals_inv (tx : JValue) (l : TxLocals) :
  tx_locals tx = Ok l ->
  exists d items fsat,
    tx = JDict d
    /\ py_iter (dict_get d "out" (JList [])) = Ok items
    /\ total_sat l = zsum (parsed_values items)
    /\ PyFloat.of_int (total_sat l) = Ok fsat
    /\ PyFloat.truediv fsat PyFloat.f1e8 = Ok (total_btc l)
    /\ match items with
       | [] => first_addr l = JNone
       | o :: _ => py_get o "addr" JNone = Ok (first_addr l)
       end
    /\ timestamp l = dict_get d "time" JNone
    /\ tx_hash l = dict_get d "hash" JNone.
Proof.
  unfold tx_locals.
  destruct tx as [| | | | | |d]; simpl; try discriminate.
  destruct (py_iter (dict_get d "out" (JList []))) as [items|] eqn:Hiter;
    simpl; try discriminate.
  destruct (sum_outputs items 0) as [t|] eqn:Hsum; simpl; try discriminate.
  destruct (PyFloat.of_int t) as [fsat|] eqn:Hfsat; simpl; try discriminate.
  destruct (PyFloat.truediv fsat PyFloat.f1e8) as [btc|] eqn:Hbtc;
    simpl; try discriminate.
  destruct (first_output_addr (dict_get d "out" (JList []))) as [a|] eqn:Haddr;
    simpl; try discriminate.
  intros [= <-]; simpl.
  exists d, items, fsat.
  apply sum_outputs_ok in Hsum; simpl in Hsum.
  pose proof (first_output_addr_spec _ _ _ Hiter Haddr).
  repeat split; auto.
Qed.

Lemma truediv_f1e8 (x : float) :
  PyFloat.truediv x PyFloat.f1e8 = Ok (SFdiv PyFloat.prec PyFloat.emax x PyFloat.f1e8).
Proof. reflexivity. Qed.

(** The code before the lock raises nothing on a transaction whose
    outputs are well formed and whose total is within the double range. *)
Lemma tx_locals_well_formed (d : Dict) (outs : list JValue) :
  dict_get d "out" (JList []) = JList outs ->
  forallb well_formed_output outs = true ->
  in_float_range (zsum (parsed_values outs)) = true ->
  exists l, tx_locals (JDict d) = Ok l
            /\ total_sat l = zsum (parsed_values outs).
Proof.
  intros Hout Hwf Hrange.
  unfold tx_locals; cbn [py_get bind]. rewrite Hout; cbn [py_iter bind].
  rewrite (sum_outputs_well_formed outs Hwf 0); cbn [bind Z.add].
  unfold in_float_range in Hrange.
  destruct (PyFloat.of_int (zsum (parsed_values outs))) as [fsat|] eqn:Hfsat;
    try discriminate; cbn [bind].
  rewrite truediv_f1e8; cbn [bind].
  unfold first_output_addr; cbn [py_truthy].
  destruct outs as [|o outs']; cbn [bind py_getitem0]; [eauto|].
  cbn [forallb] in Hwf. apply andb_true_iff in Hwf as [Ho _].
  destruct o; cbn [well_formed_output] in Ho; try discriminate;
    cbn [bind py_get]; eauto.
Qed.

(** ** The locked region of [_handle_unconfirmed_tx] *)

Lemma handle_tx_raises (self : WhaleWatch) (tx : JValue) (e : exn) :
  tx_locals tx = Raise e ->
  _handle_unconfirmed_tx self tx = mkRun self [] (Some e).
Proof. unfold _handle_unconfirmed_tx; now intros ->. Qed.

Lemma handle_tx_counters (self : WhaleWatch) (tx : JValue) (l : TxLocals) :
  tx_locals tx = Ok l ->
  let r := _handle_unconfirmed_tx self tx in
  let whale := PyFloat.ge (total_btc l) (threshold_btc self) in
  after r = count_tx self l whale
  /\ calls r = match callback self with
               | Some _ => if whale then [whale_event self l] else []
               | None => []
               end.
Proof.
  intros H; unfold _handle_unconfirmed_tx; rewrite H; simpl.
  destruct (PyFloat.ge (total_btc l) (threshold_btc self)); simpl.
  - destruct (callback self); simpl; auto.
  - destruct (callback self); auto.
Qed.

Lemma handle_tx_same_config (self : WhaleWatch) (tx : JValue) :
  same_config (after (_handle_unconfirmed_tx self tx)) self.
Proof.
  destruct (tx_locals tx) as [l|e] eqn:H.
  - destruct (handle_tx_counters self tx l H) as [-> _].
    unfold same_config; simpl; tauto.
  - rewrite (handle_tx_raises self tx e H). unfold same_config; simpl; tauto.
Qed.

(** ** Counters over a sequence of calls *)

Lemma zsum_app (a b : list Z) : zsum (a ++ b) = zsum a + zsum b.
Proof. induction a as [|x a IH]; simpl; lia. Qed.

Lemma processed_total (tx : JValue) (l : TxLocals) :
  tx_locals tx = Ok l -> total_sat l = zsum (parsed_values (tx_outputs tx)).
Proof.
  intros H. destruct (tx_locals_inv tx l H) as (d & items & fsat & -> & Hit & Ht & _).
  unfold tx_outputs; simpl. now rewrite Hit.
Qed.

Lemma apply_op_counters (self : WhaleWatch) (op : Op) :
  let self' := after (apply_op self op) in
  _unconfirmed_count self' =
    _unconfirmed_count self + Z.of_nat (List.length (filter processed (utx_of [op])))
  /\ _total_value_sat self' = _total_value_sat self + zsum (interval_values [op]).
Proof.
  destruct op; simpl; try (split; lia).
  - unfold interval_values, processed; simpl.
    destruct (tx_locals tx) as [l|e] eqn:Hl.
    + destruct (handle_tx_counters self tx l Hl) as [-> _]; simpl.
      rewrite app_nil_r, (processed_total tx l Hl). split; lia.
    + rewrite (handle_tx_raises self tx e Hl); simpl. split; lia.
  - unfold _handle_new_block.
    destruct (bind _ _); simpl; [destruct (callback self)|]; simpl; split; lia.
  - destruct fetched; simpl; split; lia.
  - destruct threshold, interval; simpl; split; lia.
Qed.

Lemma utx_of_cons (op : Op) (rest : list Op) :
  utx_of (op :: rest) = utx_of [op] ++ utx_of rest.
Proof. unfold utx_of; simpl. now rewrite app_nil_r. Qed.

Lemma run_ops_counters (ops : list Op) :
  forall self,
    let self' := fst (run_ops ops self) in
    _unconfirmed_count self' =
      _unconfirmed_count self + Z.of_nat (List.length (filter processed (utx_of ops)))
    /\ _total_value_sat self' = _total_value_sat self + zsum (interval_values ops).
Proof.
  induction ops as [|op rest IH]; intros self.
  - simpl; split; lia.
  - cbn [run_ops].
    destruct (run_ops rest (after (apply_op self op))) as [s' evs] eqn:Hrun.
    specialize (IH (after (apply_op self op))). rewrite Hrun in IH.
    cbn [fst] in *. destruct IH as [IHc IHt].
    destruct (apply_op_counters self op) as [Hc Ht].
    unfold interval_values in *.
    rewrite (utx_of_cons op rest).
    rewrite !filter_app, flat_map_app, zsum_app, length_app, Nat2Z.inj_add.
    split; lia.
Qed.

(** ** The summary payload *)

Lemma summary_data_inv (now : float) (count total whales : Z)
  (price : option float) (d : SummaryData) :
  summary_data now count total whales price = Ok d ->
  s_count d = count
  /\ s_whales d = whales
  /\ s_timestamp d = now
  /\ (exists fsat, PyFloat.of_int total = Ok fsat
                   /\ PyFloat.truediv fsat PyFloat.f1e8 = Ok (s_total_btc d))
  /\ (exists fcount, PyFloat.of_int count = Ok fcount
                     /\ PyFloat.truediv (s_total_btc d) fcount = Ok (s_avg_btc d))
  /\ s_total_usd d = PyFloat.mul (s_total_btc d) (price_or_zero price)
  /\ s_avg_usd d = PyFloat.mul (s_avg_btc d) (price_or_zero price).
Proof.
  unfold summary_data.
  destruct (PyFloat.of_int total) as [fsat|] eqn:Hfsat; cbn [bind]; try discriminate.
  destruct (PyFloat.truediv fsat PyFloat.f1e8) as [btc|] eqn:Hbtc;
    cbn [bind]; try discriminate.
  destruct (PyFloat.of_int count) as [fcount|] eqn:Hfc; cbn [bind]; try discriminate.
  destruct (PyFloat.truediv btc fcount) as [avg|] eqn:Havg;
    cbn [bind]; try discriminate.
  intros [= <-]; simpl. repeat split; eauto.
Qed.


Lemma summary_cycle_emits (now : float) (self : WhaleWatch) (d : SummaryData) :
  In (Summary d) (calls (summary_cycle now self)) ->
  _unconfirmed_count self <> 0
  /\ callback self <> None
  /\ summary_data now (_unconfirmed_count self) (_total_value_sat self)
       (_whale_count self) (_price_usd self) = Ok d.
Proof.
  unfold summary_cycle.
  destruct (_unconfirmed_count self =? 0) eqn:Hc; simpl; [tauto|].
  apply Z.eqb_neq in Hc.
  destruct (summary_data _ _ _ _ _) as [d'|e]; simpl; [|tauto].
  destruct (callback self); simpl; [|tauto].
  intros [[= ->]|[]]. repeat split; auto; discriminate.
Qed.

Lemma summary_cycle_after (now : float) (self : WhaleWatch) :
  after (summary_cycle now self) = _reset_stats self.
Proof.
  unfold summary_cycle.
  destruct (_unconfirmed_count self =? 0); simpl; auto.
  destruct (summary_data _ _ _ _ _); simpl; auto.
  destruct (callback self); auto.
Qed.

Lemma interval_start_zero (self : WhaleWatch) :
  interval_start self ->
  _unconfirmed_count self = 0 /\ _total_value_sat self = 0 /\ _whale_count self = 0.
Proof.
  intros [t i cb|now s]; [|rewrite summary_cycle_after]; simpl; auto.
Qed.

(** A cycle that finds a count of zero closes an interval in which no
    transaction was processed: intervals that end without a summary add
    nothing to the next one. *)
Lemma silent_interval_is_empty (self : WhaleWatch) (ops : list Op) :
  interval_start self ->
  _unconfirmed_count (fst (run_ops ops self)) = 0 ->
  filter processed (utx_of ops) = [] /\ interval_values ops = [].
Proof.
  intros Hstart Hzero.
  apply interval_start_zero in Hstart as (Hc0 & _).
  destruct (run_ops_counters ops self) as [Hcount _].
  rewrite Hc0, Hzero in Hcount.
  assert (H : filter processed (utx_of ops) = []).
  { destruct (filter processed (utx_of ops)); [reflexivity|simpl in Hcount; lia]. }
  split; [exact H|]. unfold interval_values. now rewrite H.
Qed.

(** ** Transactions and their outputs *)

(** C3, as amended: for a transaction whose outputs are records carrying
    no infinite float and whose total is within the double range, the
    summed base-unit value is the sum of exactly the outputs whose value
    converts under [int] (negative integers included); every other output
    is skipped, and the transaction is still counted and its total added. *)
Theorem tx_total_sums_converted_outputs
  (self : WhaleWatch) (d : Dict) (outs : list JValue) :
  dict_get d "out" (JList []) = JList outs ->
  forallb well_formed_output outs = true ->
  in_float_range (zsum (parsed_values outs)) = true ->
  let r := _handle_unconfirmed_tx self (JDict d) in
  (exists l, tx_locals (JDict d) = Ok l
             /\ total_sat l = zsum (parsed_values outs))
  /\ _total_value_sat (after r) = _total_value_sat self + zsum (parsed_values outs)
  /\ _unconfirmed_count (after r) = _unconfirmed_count self + 1
  /\ (forall out, In out outs ->
        (exists n, output_int out = Ok n /\ In n (parsed_values outs))
        \/ (skipped out = true /\ parsed_values [out] = [])).
Proof.
  intros Hout Hwf Hrange r.
  destruct (tx_locals_well_formed d outs Hout Hwf Hrange) as (l & Hl & Ht).
  destruct (handle_tx_counters self (JDict d) l Hl) as [Hafter _].
  fold r in Hafter.
  split; [eauto|]. rewrite Hafter; simpl. rewrite Ht.
  repeat split; auto.
  intros out Hin.
  assert (Hwfo : well_formed_output out = true)
    by (rewrite forallb_forall in Hwf; auto).
  destruct (well_formed_summed_or_skipped out Hwfo) as [[n [Hn _]]|Hs]; [left|now right].
  exists n; split; auto.
  unfold parsed_values. apply in_flat_map. exists out. rewrite Hn; simpl; auto.
Qed.

Lemma tx_total_sums_converted_outputs_witness :
  exists l, tx_locals Ex.tx_mixed = Ok l /\ total_sat l = 500000000.
Proof.
  apply (tx_total_sums_converted_outputs (Ex.watch None)
           [("hash", JStr "ab12"); ("time", JInt 1700000000);
            ("out", JList [Ex.output (JStr "x"); Ex.output (JInt 500000000)])]
           [Ex.output (JStr "x"); Ex.output (JInt 500000000)]);
    reflexivity.
Defined.

(** C3, as stated, fails: an output of -5 is added to the total, so the
    total of outputs -5 and 7 is 2 and not the 7 that the non-negative
    values alone would give. *)
Lemma negative_output_is_summed :
  _total_value_sat (after (_handle_unconfirmed_tx (Ex.watch None) Ex.tx_negative)) = 2
  /\ zsum (Spec.nonneg_values (tx_outputs Ex.tx_negative)) = 7
  /\ raised (_handle_unconfirmed_tx (Ex.watch None) Ex.tx_negative) = None.
Proof. repeat split; reflexivity. Qed.

(** ** Summaries *)

Lemma apply_op_callback (self : WhaleWatch) (op : Op) :
  callback (after (apply_op self op)) = callback self.
Proof.
  destruct op; simpl; auto.
  - apply (handle_tx_same_config self tx).
  - unfold _handle_new_block.
    destruct (bind _ _); simpl; [destruct (callback self) eqn:H|]; simpl; auto.
  - now destruct fetched.
  - now destruct threshold, interval.
Qed.

Lemma run_ops_callback (ops : list Op) :
  forall self, callback (fst (run_ops ops self)) = callback self.
Proof.
  induction ops as [|op rest IH]; intros self; [reflexivity|].
  cbn [run_ops].
  destruct (run_ops rest (after (apply_op self op))) as [s' evs] eqn:Hrun.
  specialize (IH (after (apply_op self op))). rewrite Hrun in IH.
  cbn [fst] in *. now rewrite IH, apply_op_callback.
Qed.

Lemma after_cycles_callback (schedule : list (list Op * float)) :
  forall self, callback (after_cycles schedule self) = callback self.
Proof.
  induction schedule as [|[ops now] rest IH]; intros self; [reflexivity|].
  cbn [after_cycles]. rewrite IH, summary_cycle_after. simpl.
  apply run_ops_callback.
Qed.

(** [after_cycles] is the object that [_summary_loop] leaves. *)
Lemma summary_loop_after_cycles (schedule : list (list Op * float)) :
  forall self,
    loop_runs schedule self ->
    fst (fst (_summary_loop schedule self)) = after_cycles schedule self.
Proof.
  induction schedule as [|[ops now] rest IH]; intros self; [reflexivity|].
  cbn [loop_runs]. intros (Hstop & Hsleep & Hraised & Hrest).
  cbn [_summary_loop after_cycles]. rewrite Hstop, Hsleep.
  destruct (run_ops ops self) as [self1 evs1].
  cbn [fst] in *. rewrite Hraised.
  specialize (IH _ Hrest).
  destruct (_summary_loop rest (after (summary_cycle now self1))) as [[s2 evs2] e].
  exact IH.
Qed.

(** With a callback installed, a cycle that neither emits nor raises
    found a count of zero. *)
Lemma quiet_cycle_zero (now : float) (self : WhaleWatch) :
  callback self <> None ->
  calls (summary_cycle now self) = [] ->
  raised (summary_cycle now self) = None ->
  _unconfirmed_count self = 0.
Proof.
  unfold summary_cycle.
  destruct (_unconfirmed_count self =? 0) eqn:Hc; [intros; now apply Z.eqb_eq|].
  destruct (summary_data _ _ _ _ _) as [d|e]; simpl; [|discriminate].
  destruct (callback self); simpl; [discriminate | congruence].
Qed.

Lemma utx_of_app (a b : list Op) : utx_of (a ++ b) = utx_of a ++ utx_of b.
Proof. apply flat_map_app. Qed.

Lemma interval_values_app (a b : list Op) :
  interval_values (a ++ b) = interval_values a ++ interval_values b.
Proof.
  unfold interval_values. now rewrite utx_of_app, filter_app, flat_map_app.
Qed.

(** The summary that closes one interval. *)
Lemma summary_reports_one_interval
  (self : WhaleWatch) (ops : list Op) (now : float) (d : SummaryData) :
  interval_start self ->
  In (Summary d) (calls (summary_cycle now (fst (run_ops ops self)))) ->
  s_count d = Z.of_nat (List.length (filter processed (utx_of ops)))
  /\ exists fsat,
       PyFloat.of_int (zsum (interval_values ops)) = Ok fsat
       /\ PyFloat.truediv fsat PyFloat.f1e8 = Ok (s_total_btc d).
Proof.
  intros Hstart Hin.
  apply interval_start_zero in Hstart as (Hc0 & Ht0 & _).
  apply summary_cycle_emits in Hin as (_ & _ & Hd).
  apply summary_data_inv in Hd as (Hc & _ & _ & (fsat & Hfsat & Hbtc) & _).
  destruct (run_ops_counters ops self) as [Hcount Htotal].
  rewrite Hc0 in Hcount. rewrite Ht0 in Htotal.
  rewrite Hcount in Hc. rewrite Htotal in Hfsat.
  split; [exact Hc|]. exists fsat; split; [exact Hfsat | exact Hbtc].
Qed.

(** C1, as amended: take the object as a summary cycle (or [__init__])
    leaves it, let any number of cycles pass without an emission, and
    let the next cycle emit a summary.  Its count is the number of
    transactions processed since the start, with or without an output
    that converts, and its total is the exact integer sum of all
    converted output values of those transactions, divided by 1e8 in
    double precision. *)
Theorem summary_reports_interval
  (quiet : list (list Op * float)) (self : WhaleWatch)
  (ops : list Op) (now : float) (d : SummaryData) :
  interval_start self ->
  quiet_cycles quiet self ->
  In (Summary d)
     (calls (summary_cycle now (fst (run_ops ops (after_cycles quiet self))))) ->
  let all := schedule_ops quiet ++ ops in
  s_count d = Z.of_nat (List.length (filter processed (utx_of all)))
  /\ exists fsat,
       PyFloat.of_int (zsum (interval_values all)) = Ok fsat
       /\ PyFloat.truediv fsat PyFloat.f1e8 = Ok (s_total_btc d).
Proof.
  revert self.
  induction quiet as [|[ops0 now0] rest IH]; intros self Hstart Hquiet Hin.
  - exact (summary_reports_one_interval self ops now d Hstart Hin).
  - cbn [quiet_cycles] in Hquiet. destruct Hquiet as (Hcalls & Hraised & Hrest).
    cbn [after_cycles] in Hin.
    assert (Hcb : callback (fst (run_ops ops0 self)) <> None).
    { apply summary_cycle_emits in Hin as (_ & Hcb & _).
      rewrite run_ops_callback, after_cycles_callback, summary_cycle_after in Hcb.
      exact Hcb. }
    pose proof (quiet_cycle_zero now0 _ Hcb Hcalls Hraised) as Hzero.
    destruct (silent_interval_is_empty self ops0 Hstart Hzero) as [Hnone Hvals].
    specialize (IH _ (start_cycle now0 (fst (run_ops ops0 self))) Hrest Hin).
    cbn zeta in IH |- *.
    unfold schedule_ops in *; cbn [flat_map fst].
    rewrite <- app_assoc, utx_of_app, filter_app, Hnone.
    rewrite (interval_values_app ops0), Hvals.
    exact IH.
Qed.

Lemma summary_reports_interval_witness :
  s_count Ex.interval_summary = 3
  /\ exists fsat,
       PyFloat.of_int 30000000000 = Ok fsat
       /\ PyFloat.truediv fsat PyFloat.f1e8 = Ok (PyFloat.lit 300).
Proof.
  apply (summary_reports_interval [([NewBlock Ex.now (JDict [])], Ex.now)]
           (Ex.watch (Some broadcast_callback))
           Ex.interval_ops Ex.now Ex.interval_summary).
  - apply start_init.
  - vm_compute. repeat split.
  - vm_compute. left. reflexivity.
Defined.

(** C1, as stated, fails: a transaction without outputs has no parseable
    output value, yet the summary counts it. *)
Lemma summary_counts_tx_without_outputs :
  (exists d,
      calls (summary_cycle Ex.now
               (Ex.at_wake (Some broadcast_callback) [Utx Ex.tx_no_outputs]))
      = [Summary d]
      /\ s_count d = 1)
  /\ filter Spec.has_parseable_output (utx_of [Utx Ex.tx_no_outputs]) = [].
Proof. split; [eexists; split; reflexivity | reflexivity]. Qed.

(** ** Whale classification *)

Lemma SFcompare_Eq_sym (x y : float) :
  SFcompare x y = Some Eq -> SFcompare y x = Some Eq.
Proof.
  destruct x as [sx|sx| |sx mx ex], y as [sy|sy| |sy my ey]; simpl; auto;
    try (destruct sx; discriminate); try (destruct sy; discriminate);
    try (destruct sx, sy; auto; discriminate).
  destruct sx, sy; try discriminate;
    destruct (Z.compare ex ey) eqn:He; try discriminate;
    apply Z.compare_eq in He; subst ey; rewrite Z.compare_refl;
    destruct (Pos.compare_cont Eq mx my) eqn:Hm; try discriminate;
    apply Pos.compare_eq in Hm; subst my; intros _;
    change (Pos.compare_cont Eq mx mx) with (Pos.compare mx mx);
    now rewrite Pos.compare_refl.
Qed.

(** A value equal to the threshold meets it. *)
Lemma ge_of_eqb (x y : float) :
  PyFloat.eqb x y = true -> PyFloat.ge x y = true.
Proof.
  unfold PyFloat.eqb, PyFloat.ge, SFeqb, SFleb.
  destruct (SFcompare x y) as [[| |]|] eqn:H; try discriminate.
  now rewrite (SFcompare_Eq_sym x y H).
Qed.

Lemma update_config_threshold (self : WhaleWatch) (t : float) (i : option Z) :
  threshold_btc (update_config self (Some t) i) = t
  /\ _whale_count (update_config self (Some t) i) = _whale_count self
  /\ callback (update_config self (Some t) i) = callback self.
Proof. destruct i; simpl; auto. Qed.

(** C2, as amended: a processed transaction whose value in coins is
    greater than or equal to the threshold held by the object at that
    moment, equality included, increments the whale count and, when a
    callback is configured, has a whale event handed to it; otherwise the
    whale count is left alone and nothing is emitted.  The threshold read
    is the one last written: after a reconfiguration it is the new one. *)
Theorem whale_classification (self : WhaleWatch) (tx : JValue) (l : TxLocals) :
  tx_locals tx = Ok l ->
  let r := _handle_unconfirmed_tx self tx in
  let whale := PyFloat.ge (total_btc l) (threshold_btc self) in
  (PyFloat.eqb (total_btc l) (threshold_btc self) = true -> whale = true)
  /\ _whale_count (after r) = (if whale then _whale_count self + 1 else _whale_count self)
  /\ calls r = match callback self with
               | Some _ => if whale then [whale_event self l] else []
               | None => []
               end
  /\ (forall t i,
        _whale_count (after (_handle_unconfirmed_tx (update_config self (Some t) i) tx))
        = if PyFloat.ge (total_btc l) t then _whale_count self + 1 else _whale_count self).
Proof.
  intros Hl r whale.
  destruct (handle_tx_counters self tx l Hl) as [Hafter Hcalls].
  fold r in Hafter, Hcalls. fold whale in Hafter, Hcalls.
  split; [apply ge_of_eqb|].
  split; [now rewrite Hafter|].
  split; [exact Hcalls|].
  intros t i.
  destruct (handle_tx_counters (update_config self (Some t) i) tx l Hl) as [-> _].
  destruct (update_config_threshold self t i) as (Ht & Hw & _).
  unfold count_tx; cbn [_whale_count]. now rewrite Ht, Hw.
Qed.

Lemma whale_classification_witness :
  _whale_count (after (_handle_unconfirmed_tx
                         (Ex.watch (Some broadcast_callback)) (Ex.tx_btc 100))) = 1.
Proof.
  pose proof (whale_classification (Ex.watch (Some broadcast_callback)) (Ex.tx_btc 100)
                (mkTxLocals 10000000000 (PyFloat.lit 100) (JStr "1A")
                   (JInt 1700000000) (JStr "ab12"))
                eq_refl) as H.
  exact (proj1 (proj2 H)).
Defined.

(** C2, as stated, fails: on an object built without a callback a
    transaction that meets the threshold is counted as a whale and no
    event is emitted. *)
Lemma whale_without_callback_emits_nothing :
  (exists l, tx_locals (Ex.tx_btc 100) = Ok l
             /\ PyFloat.ge (total_btc l) (threshold_btc (Ex.watch None)) = true)
  /\ _whale_count (after (_handle_unconfirmed_tx (Ex.watch None) (Ex.tx_btc 100))) = 1
  /\ calls (_handle_unconfirmed_tx (Ex.watch None) (Ex.tx_btc 100)) = [].
Proof. split; [eexists; split; reflexivity | split; reflexivity]. Qed.

(** ** The summary cycle *)

Lemma price_or_zero_cached (p : float) :
  PyFloat.truthy p = true -> price_or_zero (Some p) = p.
Proof. unfold price_or_zero; now intros ->. Qed.





(** ** The whale payload *)

Lemma mul_zero_finite (x : float) :
  PyFloat.is_finite x = true ->
  PyFloat.eqb (PyFloat.mul PyFloat.zero x) PyFloat.zero = true.
Proof. destruct x as [s|s| |s m e]; simpl; try discriminate; auto. Qed.

Lemma handle_tx_emits (self : WhaleWatch) (tx : JValue) (d : WhaleData) :
  In (Whale d) (calls (_handle_unconfirmed_tx self tx)) ->
  exists l, tx_locals tx = Ok l
            /\ PyFloat.ge (total_btc l) (threshold_btc self) = true
            /\ Whale d = whale_event self l.
Proof.
  destruct (tx_locals tx) as [l|e] eqn:Hl.
  - destruct (handle_tx_counters self tx l Hl) as [_ ->].
    destruct (callback self); [|intros []].
    destruct (PyFloat.ge (total_btc l) (threshold_btc self)) eqn:Hge; [|intros []].
    intros [H|[]]. exists l; repeat split; auto.
  - rewrite (handle_tx_raises self tx e Hl). intros [].
Qed.

(** C6: a whale event carries the hash of the transaction, its value in
    coins (the integer total divided by 1e8), that value multiplied by the
    cached price or by 0.0 when no price is cached, the timestamp of the
    transaction, and the address of the first output, [None] when there
    is no output. *)
Theorem whale_event_payload (self : WhaleWatch) (tx : JValue) (d : WhaleData) :
  In (Whale d) (calls (_handle_unconfirmed_tx self tx)) ->
  exists dtx outs fsat,
    tx = JDict dtx
    /\ py_iter (dict_get dtx "out" (JList [])) = Ok outs
    /\ w_hash d = dict_get dtx "hash" JNone
    /\ PyFloat.of_int (zsum (parsed_values outs)) = Ok fsat
    /\ PyFloat.truediv fsat PyFloat.f1e8 = Ok (w_value_btc d)
    /\ w_value_usd d = PyFloat.mul (price_or_zero (_price_usd self)) (w_value_btc d)
    /\ (forall p, _price_usd self = Some p -> PyFloat.truthy p = true ->
                  w_value_usd d = PyFloat.mul p (w_value_btc d))
    /\ (_price_usd self = None ->
        w_value_usd d = PyFloat.mul PyFloat.zero (w_value_btc d)
        /\ (PyFloat.is_finite (w_value_btc d) = true ->
            PyFloat.eqb (w_value_usd d) PyFloat.zero = true))
    /\ w_timestamp d = dict_get dtx "time" JNone
    /\ match outs with
       | [] => w_address d = JNone
       | o :: _ => py_get o "addr" JNone = Ok (w_address d)
       end.
Proof.
  intros Hin.
  apply handle_tx_emits in Hin as (l & Hl & _ & Hev).
  injection Hev as ->; cbn [w_hash w_value_btc w_value_usd w_timestamp w_address].
  destruct (tx_locals_inv tx l Hl)
    as (dtx & outs & fsat & -> & Hit & Ht & Hf & Hbtc & Haddr & Htime & Hhash).
  exists dtx, outs, fsat. rewrite <- Ht.
  split; [reflexivity|]. split; [exact Hit|]. split; [exact Hhash|].
  split; [exact Hf|]. split; [exact Hbtc|]. split; [reflexivity|].
  split; [|split; [|split; [exact Htime | exact Haddr]]].
  - intros p -> Hp. now rewrite price_or_zero_cached.
  - intros ->. split; [reflexivity|]. apply mul_zero_finite.
Qed.

Lemma whale_event_payload_witness :
  exists dtx outs fsat,
    Ex.tx_btc 150 = JDict dtx
    /\ py_iter (dict_get dtx "out" (JList [])) = Ok outs
    /\ JStr "ab12" = dict_get dtx "hash" JNone
    /\ PyFloat.of_int (zsum (parsed_values outs)) = Ok fsat
    /\ PyFloat.truediv fsat PyFloat.f1e8 = Ok (PyFloat.lit 150).
Proof.
  destruct (whale_event_payload (Ex.watch (Some broadcast_callback)) (Ex.tx_btc 150)
              (mkWhaleData (JStr "ab12") (PyFloat.lit 150) PyFloat.zero
                 (JInt 1700000000) (JStr "1A")))
    as (dtx & outs & fsat & H1 & H2 & H3 & H4 & H5 & _).
  - vm_compute. left. reflexivity.
  - exists dtx, outs, fsat. repeat split; assumption.
Defined.

(** ** Configuration *)

(** C5: [update_config] writes exactly the parameters it is given: the
    threshold is replaced only when one is supplied, the interval only
    when one is supplied, a call with neither changes nothing, and no
    other attribute is ever touched.  Read back through the web front
    end, [update_config(None, 30)] shows the old threshold and 30. *)
Theorem update_config_frame
  (self : WhaleWatch) (threshold : option float) (interval : option Z) :
  let self' := update_config self threshold interval in
  threshold_btc self' = match threshold with
                        | Some t => t
                        | None => threshold_btc self
                        end
  /\ summary_interval self' = match interval with
                              | Some i => i
                              | None => summary_interval self
                              end
  /\ (threshold = None -> threshold_btc self' = threshold_btc self)
  /\ (interval = None -> summary_interval self' = summary_interval self)
  /\ update_config self None None = self
  /\ callback self' = callback self
  /\ _unconfirmed_count self' = _unconfirmed_count self
  /\ _total_value_sat self' = _total_value_sat self
  /\ _whale_count self' = _whale_count self
  /\ _price_usd self' = _price_usd self
  /\ _stop_event self' = _stop_event self
  /\ (forall qs, config_get (fst (config_post (mkApp (Some self) qs) None (Some 30)))
                 = Some (threshold_btc self, 30)).
Proof.
  destruct threshold as [t|], interval as [i|]; simpl;
    repeat split; auto; discriminate.
Qed.

Lemma update_config_frame_witness :
  threshold_btc (update_config (Ex.watch None) None (Some 30)) = PyFloat.lit 100
  /\ summary_interval (update_config (Ex.watch None) (Some (PyFloat.lit 50)) None) = 60.
Proof.
  split.
  - exact (proj1 (proj2 (proj2 (update_config_frame (Ex.watch None) None (Some 30))))
             eq_refl).
  - exact (proj1 (proj2 (proj2 (proj2
             (update_config_frame (Ex.watch None) (Some (PyFloat.lit 50)) None))))
             eq_refl).
Defined.

(** ** Fan-out *)

Lemma broadcast_event_map (ev : Event) (qs : list Queue) :
  broadcast_event ev qs = (map (delivered ev) qs, List.length (filter full qs)).
Proof.
  induction qs as [|q rest IH]; simpl; [reflexivity|].
  rewrite IH. unfold put, delivered. now destruct (full q).
Qed.

Lemma filter_length_le {A : Type} (f : A -> bool) (l : list A) :
  (List.length (filter f l) <= List.length l)%nat.
Proof.
  induction l as [|x l IH]; simpl; [lia|]. destruct (f x); simpl; lia.
Qed.

(** C7: [broadcast_event] visits every registered queue.  A queue that is
    full keeps its content, the event being dropped for it alone; every
    queue that is not full receives the event at its tail, wherever the
    full ones stand in the list.  The call returns after at most one
    timed-out [put] per subscriber. *)
Theorem broadcast_event_delivery (ev : Event) (qs : list Queue) :
  let qs' := fst (broadcast_event ev qs) in
  let waits := snd (broadcast_event ev qs) in
  List.length qs' = List.length qs
  /\ (forall i q, nth_error qs i = Some q ->
        exists q', nth_error qs' i = Some q'
                   /\ maxsize q' = maxsize q
                   /\ (full q = true -> q' = q)
                   /\ (full q = false -> items q' = items q ++ [ev]))
  /\ waits = List.length (filter full qs)
  /\ (waits <= List.length qs)%nat.
Proof.
  rewrite broadcast_event_map; simpl.
  split; [apply length_map|]. split; [|split; [reflexivity | apply filter_length_le]].
  intros i q Hq. exists (delivered ev q).
  split; [now apply map_nth_error|].
  unfold delivered; destruct (full q); simpl; repeat split; auto; discriminate.
Qed.

Lemma broadcast_event_delivery_witness :
  exists q',
    nth_error (fst (broadcast_event (Config (mkConfigData (PyFloat.lit 50) 30))
                      [mkQueue 1 [Config (mkConfigData (PyFloat.lit 100) 60)];
                       new_client_queue])) 1 = Some q'
    /\ maxsize q' = 100
    /\ (full new_client_queue = true -> q' = new_client_queue)
    /\ (full new_client_queue = false ->
        items q' = [] ++ [Config (mkConfigData (PyFloat.lit 50) 30)]).
Proof.
  exact (proj1 (proj2 (broadcast_event_delivery
                         (Config (mkConfigData (PyFloat.lit 50) 30))
                         [mkQueue 1 [Config (mkConfigData (PyFloat.lit 100) 60)];
                          new_client_queue]))
           1%nat new_client_queue eq_refl).
Defined.

(** ** Liveness reporting *)

(** C8: the class binds no attribute [is_running], so the health check
    never reaches its call and answers ["starting"] whatever the state of
    the watcher. *)
Theorem health_check_never_healthy (w : WhaleWatch) (qs : list Queue) :
  hasattr "is_running" = false
  /\ health_check (mkApp (Some w) qs) = ("starting", 200)
  /\ health_check (mkApp (Some (start_watcher (PyFloat.lit 100) 60)) qs)
     <> ("healthy", 200).
Proof. repeat split; discriminate. Qed.

(** ** The counters *)

Lemma apply_op_counters_ok (self : WhaleWatch) (op : Op) :
  counters_ok self -> counters_ok (after (apply_op self op)).
Proof.
  unfold counters_ok; intros H.
  destruct op; simpl; auto.
  - destruct (tx_locals tx) as [l|e] eqn:Hl.
    + destruct (handle_tx_counters self tx l Hl) as [-> _]; simpl.
      destruct (PyFloat.ge _ _); lia.
    + now rewrite (handle_tx_raises self tx e Hl).
  - unfold _handle_new_block.
    destruct (bind _ _); simpl; [destruct (callback self)|]; simpl; auto.
  - destruct fetched; simpl; auto.
  - destruct threshold, interval; simpl; auto.
Qed.

Lemma summary_cycle_counters_ok (now : float) (self : WhaleWatch) :
  counters_ok (after (summary_cycle now self)).
Proof. rewrite summary_cycle_after. unfold counters_ok; simpl; lia. Qed.

(** C9: the whale count stays between 0 and the transaction count.  The
    inequality holds on a new object, every call that another thread can
    make preserves it, a summary cycle re-establishes it, and so it holds
    in every state the object can reach. *)
Theorem whale_count_bounded :
  (forall threshold interval cb, counters_ok (init threshold interval cb))
  /\ (forall self op, counters_ok self -> counters_ok (after (apply_op self op)))
  /\ (forall self now, counters_ok (after (summary_cycle now self)))
  /\ (forall self, reachable self ->
        0 <= _whale_count self <= _unconfirmed_count self).
Proof.
  split; [intros; unfold counters_ok; simpl; lia|].
  split; [apply apply_op_counters_ok|].
  split; [intros; apply summary_cycle_counters_ok|].
  intros self H; induction H.
  - simpl; lia.
  - now apply apply_op_counters_ok.
  - apply summary_cycle_counters_ok.
Qed.

Lemma whale_count_bounded_witness :
  0 <= _whale_count (after (apply_op (Ex.watch None) (Utx (Ex.tx_btc 150))))
    <= _unconfirmed_count (after (apply_op (Ex.watch None) (Utx (Ex.tx_btc 150)))).
Proof.
  apply (proj2 (proj2 (proj2 whale_count_bounded))).
  apply reach_op. apply reach_init.
Defined.

(** ** Dispatch of decoded messages *)

Lemma on_message_utx (now : float) (self : WhaleWatch) (d : Dict) (tx : JValue) :
  dict_get d "op" JNone = JStr "utx" ->
  dict_get d "x" (JDict []) = tx ->
  _on_message now self (JDict d) = _handle_unconfirmed_tx self tx.
Proof. unfold _on_message; simpl. now intros -> ->. Qed.

Lemma on_message_unknown (now : float) (self : WhaleWatch) (d : Dict) (op : string) :
  dict_get d "op" JNone = JStr op ->
  String.eqb op "utx" = false ->
  String.eqb op "block" = false ->
  _on_message now self (JDict d) = mkRun self [] None.
Proof. unfold _on_message; simpl. now intros -> -> ->. Qed.

(** ** Exceptions raised by the callback *)

Section Swallow.

Variable cb : Callback.
Hypothesis cb_raises_exceptions :
  forall ev e, cb ev = Some e -> is_Exception e = true.





End Swallow.




(** * Further properties of the code *)

(** ** The loop over the outputs, again *)

Lemma output_int_raises (out : JValue) (e : exn) :
  output_int out = Raise e ->
  e = AttributeError \/ e = TypeError \/ e = ValueError \/ e = OverflowError.
Proof.
  unfold output_int.
  destruct out as [| | | | | |d]; simpl; try (intros [= <-]; auto).
  destruct (dict_get d "value" (JInt 0)) as [|b|z|f|s|l|d']; simpl;
    try (intros [= <-]; auto); try discriminate.
  - destruct f; simpl; try discriminate; intros [= <-]; auto.
  - destruct (of_string_cases s) as [[n Hn]|Hn]; rewrite Hn;
      [discriminate | intros [= <-]; auto].
Qed.

Lemma aborts_well_formed (out : JValue) :
  aborts out = negb (well_formed_output out).
Proof.
  unfold aborts.
  destruct (well_formed_output out) eqn:Hwf.
  - destruct (output_int_cases out Hwf) as [[n Hn]|[Hn|Hn]]; now rewrite Hn.
  - unfold output_int.
    destruct out as [| | | | | |d]; simpl in *; try reflexivity.
    destruct (dict_get d "value" (JInt 0)) as [|b|z|f|s|l|d']; try discriminate.
    destruct f; try discriminate. reflexivity.
Qed.

Lemma sum_outputs_no_abort (outs : list JValue) :
  existsb aborts outs = false ->
  forall acc, sum_outputs outs acc = Ok (acc + zsum (parsed_values outs)).
Proof.
  intros H. apply sum_outputs_well_formed.
  induction outs as [|out rest IH]; [reflexivity|].
  simpl in *. apply orb_false_iff in H as [Ho Hr].
  rewrite aborts_well_formed in Ho. apply negb_false_iff in Ho.
  now rewrite Ho, IH.
Qed.

Lemma sum_outputs_abort (outs : list JValue) :
  existsb aborts outs = true ->
  forall acc, exists e,
    sum_outputs outs acc = Raise e /\ (e = AttributeError \/ e = OverflowError).
Proof.
  induction outs as [|out rest IH]; simpl; [discriminate|].
  intros H acc. unfold aborts in H at 1.
  destruct (output_int out) as [n|e] eqn:Ho.
  - simpl in H. apply IH; exact H.
  - destruct (output_int_raises out e Ho) as [-> | [-> | [-> | ->]]]; simpl in H;
      eauto.
Qed.

Lemma sum_outputs_ok_no_abort (outs : list JValue) (acc t : Z) :
  sum_outputs outs acc = Ok t -> existsb aborts outs = false.
Proof.
  intros H. destruct (existsb aborts outs) eqn:Hex; [|reflexivity].
  destruct (sum_outputs_abort outs Hex acc) as (e & He & _). congruence.
Qed.

Lemma zsum_perm (a b : list Z) : Permutation a b -> zsum a = zsum b.
Proof.
  intros H; induction H as [|x a b _ IH|x y a|a b c _ IH1 _ IH2]; simpl; lia.
Qed.

Lemma existsb_perm {A : Type} (f : A -> bool) (a b : list A) :
  Permutation a b -> existsb f a = existsb f b.
Proof.
  intros H; induction H as [|x a b _ IH|x y a|a b c _ IH1 _ IH2]; simpl.
  - reflexivity.
  - now rewrite IH.
  - now rewrite !orb_assoc, (orb_comm (f y)).
  - congruence.
Qed.

(** X1: the order of the outputs does not matter to the loop: when it
    finishes on a list it finishes with the same total on every
    rearrangement of it. *)
Theorem sum_outputs_order (outs outs' : list JValue) (acc t : Z) :
  Permutation outs outs' ->
  sum_outputs outs acc = Ok t ->
  sum_outputs outs' acc = Ok t.
Proof.
  intros Hperm Hok.
  pose proof (sum_outputs_ok_no_abort outs acc t Hok) as Hno.
  rewrite (sum_outputs_no_abort outs Hno) in Hok. injection Hok as <-.
  rewrite (existsb_perm aborts _ _ Hperm) in Hno.
  rewrite (sum_outputs_no_abort outs' Hno). f_equal. f_equal.
  apply zsum_perm. unfold parsed_values.
  now apply Permutation_flat_map.
Qed.

Lemma sum_outputs_order_witness :
  sum_outputs [Ex.output (JInt 7); Ex.output (JStr "x"); Ex.output (JInt (-5))] 10
  = Ok 12.
Proof.
  apply (sum_outputs_order
           [Ex.output (JInt (-5)); Ex.output (JInt 7); Ex.output (JStr "x")]).
  - apply perm_trans with
      [Ex.output (JInt 7); Ex.output (JInt (-5)); Ex.output (JStr "x")].
    + apply perm_swap.
    + apply perm_skip. apply perm_swap.
  - reflexivity.
Defined.

(** X2: one output that is no record, or whose value is an infinite
    float, makes the handler raise before the lock is taken: the
    transaction is not counted, nothing is added to the total and no
    callback is invoked, whatever its other outputs are. *)
Theorem bad_output_drops_transaction
  (self : WhaleWatch) (d : Dict) (outs : list JValue) :
  dict_get d "out" (JList []) = JList outs ->
  forallb well_formed_output outs = false ->
  exists e,
    _handle_unconfirmed_tx self (JDict d) = mkRun self [] (Some e)
    /\ (e = AttributeError \/ e = OverflowError).
Proof.
  intros Hout Hwf.
  assert (Hab : existsb aborts outs = true).
  { clear Hout. induction outs as [|o rest IH]; simpl in *; [discriminate|].
    rewrite aborts_well_formed.
    destruct (well_formed_output o); simpl in *; auto. }
  destruct (sum_outputs_abort outs Hab 0) as (e & He & Hcases).
  exists e. split; [|exact Hcases].
  apply handle_tx_raises. unfold tx_locals; cbn [py_get bind].
  rewrite Hout; cbn [py_iter bind]. now rewrite He.
Qed.

Lemma bad_output_drops_transaction_witness :
  exists e,
    _handle_unconfirmed_tx (Ex.watch (Some broadcast_callback))
      (Ex.tx_of [Ex.output (JInt 500000000); JInt 3])
    = mkRun (Ex.watch (Some broadcast_callback)) [] (Some e)
    /\ (e = AttributeError \/ e = OverflowError).
Proof.
  apply (bad_output_drops_transaction (Ex.watch (Some broadcast_callback))
           [("hash", JStr "ab12"); ("time", JInt 1700000000);
            ("out", JList [Ex.output (JInt 500000000); JInt 3])]
           [Ex.output (JInt 500000000); JInt 3]);
    reflexivity.
Defined.

(** X3: while the threshold is NaN no transaction is a whale: the whale
    count stays and no event is emitted, the transaction being counted
    as any other. *)
Theorem nan_threshold_no_whale (self : WhaleWatch) (tx : JValue) :
  threshold_btc self = S754_nan ->
  let r := _handle_unconfirmed_tx self tx in
  _whale_count (after r) = _whale_count self
  /\ calls r = []
  /\ (forall l, tx_locals tx = Ok l ->
        _unconfirmed_count (after r) = _unconfirmed_count self + 1
        /\ raised r = None).
Proof.
  intros Hnan r. subst r.
  destruct (tx_locals tx) as [l|e] eqn:Hl.
  - unfold _handle_unconfirmed_tx. rewrite Hl, Hnan.
    assert (Hge : PyFloat.ge (total_btc l) S754_nan = false) by reflexivity.
    rewrite Hge. simpl. repeat split; auto.
  - rewrite (handle_tx_raises self tx e Hl). simpl.
    repeat split; auto; discriminate.
Qed.

Lemma nan_threshold_no_whale_witness :
  _whale_count (after (_handle_unconfirmed_tx
                         (update_threshold (Ex.watch None) S754_nan)
                         (Ex.tx_btc 150))) = 0.
Proof.
  exact (proj1 (nan_threshold_no_whale
                  (update_threshold (Ex.watch None) S754_nan) (Ex.tx_btc 150)
                  eq_refl)).
Defined.

(** ** Events and counters over a sequence of calls *)

Lemma handle_block_run (now : float) (self : WhaleWatch) (block : JValue) :
  after (_handle_new_block now self block) = self
  /\ filter is_whale_event (calls (_handle_new_block now self block)) = []
  /\ (callback self = None -> calls (_handle_new_block now self block) = []).
Proof.
  unfold _handle_new_block.
  destruct block; simpl; try (repeat split; reflexivity).
  destruct (callback self); simpl; repeat split; auto; discriminate.
Qed.

Lemma run_ops_cons (op : Op) (rest : list Op) (self : WhaleWatch) :
  run_ops (op :: rest) self
  = (fst (run_ops rest (after (apply_op self op))),
     calls (apply_op self op) ++ snd (run_ops rest (after (apply_op self op)))).
Proof.
  cbn [run_ops]. now destruct (run_ops rest (after (apply_op self op))).
Qed.

Lemma apply_op_whale_events (self : WhaleWatch) (op : Op) (cb : Callback) :
  callback self = Some cb ->
  Z.of_nat (List.length (filter is_whale_event (calls (apply_op self op))))
  = _whale_count (after (apply_op self op)) - _whale_count self.
Proof.
  intros Hcb. destruct op; simpl; try lia.
  - destruct (tx_locals tx) as [l|e] eqn:Hl.
    + destruct (handle_tx_counters self tx l Hl) as [-> ->].
      rewrite Hcb. destruct (PyFloat.ge _ _); simpl; lia.
    + rewrite (handle_tx_raises self tx e Hl); simpl; lia.
  - destruct (handle_block_run now self block) as (-> & -> & _). simpl; lia.
  - destruct fetched; simpl; lia.
  - destruct threshold, interval; simpl; lia.
Qed.

(** X4: with a callback installed, the whale events emitted over any
    sequence of calls are as many as the whale count has grown: every
    whale counted has its event, and no event comes without a count. *)
Theorem whale_events_match_count (ops : list Op) :
  forall (self : WhaleWatch) (cb : Callback),
    callback self = Some cb ->
    Z.of_nat (List.length (filter is_whale_event (snd (run_ops ops self))))
    = _whale_count (fst (run_ops ops self)) - _whale_count self.
Proof.
  induction ops as [|op rest IH]; intros self cb Hcb.
  - simpl; lia.
  - rewrite run_ops_cons; cbn [fst snd].
    rewrite filter_app, length_app, Nat2Z.inj_add.
    rewrite (apply_op_whale_events self op cb Hcb).
    rewrite (IH (after (apply_op self op)) cb)
      by (now rewrite apply_op_callback).
    lia.
Qed.

Lemma whale_events_match_count_witness :
  Z.of_nat (List.length
              (filter is_whale_event
                 (snd (run_ops Ex.interval_ops (Ex.watch (Some broadcast_callback))))))
  = 2 - 0.
Proof.
  exact (whale_events_match_count Ex.interval_ops
           (Ex.watch (Some broadcast_callback)) broadcast_callback eq_refl).
Defined.

Lemma apply_op_no_callback (self : WhaleWatch) (op : Op) :
  callback self = None -> calls (apply_op self op) = [].
Proof.
  intros Hcb. destruct op; simpl; auto.
  - destruct (tx_locals tx) as [l|e] eqn:Hl.
    + destruct (handle_tx_counters self tx l Hl) as [_ ->]. now rewrite Hcb.
    + now rewrite (handle_tx_raises self tx e Hl).
  - now apply handle_block_run.
Qed.

Lemma run_ops_no_callback (ops : list Op) :
  forall self, callback self = None -> snd (run_ops ops self) = [].
Proof.
  induction ops as [|op rest IH]; intros self Hcb; [reflexivity|].
  rewrite run_ops_cons; cbn [snd].
  rewrite (apply_op_no_callback self op Hcb), IH; [reflexivity|].
  now rewrite apply_op_callback.
Qed.

Lemma summary_cycle_no_callback (now : float) (self : WhaleWatch) :
  callback self = None -> calls (summary_cycle now self) = [].
Proof.
  intros Hcb. unfold summary_cycle.
  destruct (_unconfirmed_count self =? 0); [reflexivity|].
  destruct (summary_data _ _ _ _ _); [|reflexivity].
  cbn [_reset_stats callback]. now rewrite Hcb.
Qed.

(** X5: an object built without a callback never emits anything: no
    handler and no iteration of the summary loop makes a call. *)
Theorem no_callback_no_events (schedule : list (list Op * float)) :
  forall self,
    callback self = None ->
    snd (fst (_summary_loop schedule self)) = []
    /\ (forall ops, snd (run_ops ops self) = []).
Proof.
  induction schedule as [|[ops now] rest IH]; intros self Hcb.
  - split; [reflexivity | intros; now apply run_ops_no_callback].
  - split; [|intros; now apply run_ops_no_callback].
    cbn [_summary_loop]. destruct (_stop_event self); [reflexivity|].
    destruct (time_sleep (summary_interval self)); [reflexivity|].
    pose proof (run_ops_no_callback ops self Hcb) as Hevs.
    pose proof (run_ops_callback ops self) as Hcb1. rewrite Hcb in Hcb1.
    destruct (run_ops ops self) as [self1 evs1]; cbn [fst snd] in *. subst evs1.
    rewrite (summary_cycle_no_callback now self1 Hcb1).
    destruct (raised (summary_cycle now self1)); [reflexivity|].
    assert (Hcb2 : callback (after (summary_cycle now self1)) = None)
      by (now rewrite summary_cycle_after).
    destruct (IH _ Hcb2) as [Hloop _].
    destruct (_summary_loop rest (after (summary_cycle now self1))) as [[s2 evs2] e].
    exact Hloop.
Qed.

Lemma no_callback_no_events_witness :
  snd (fst (_summary_loop [(Ex.interval_ops, Ex.now)] (Ex.watch None))) = [].
Proof.
  exact (proj1 (no_callback_no_events [(Ex.interval_ops, Ex.now)]
                  (Ex.watch None) eq_refl)).
Defined.

Lemma apply_op_keeps_threshold (self : WhaleWatch) (op : Op) :
  keeps_threshold op = true ->
  threshold_btc (after (apply_op self op)) = threshold_btc self
  /\ _whale_count (after (apply_op self op))
     = _whale_count self
       + Z.of_nat (List.length (filter (is_whale_at (threshold_btc self)) (utx_of [op]))).
Proof.
  destruct op as [tx|now block|fetched|t|i|[t|] interval|]; simpl;
    try discriminate; intros _; try (split; [reflexivity|lia]).
  - unfold is_whale_at.
    destruct (tx_locals tx) as [l|e] eqn:Hl.
    + destruct (handle_tx_counters self tx l Hl) as [-> _]; simpl.
      destruct (PyFloat.ge _ _); split; auto; cbn [List.length]; lia.
    + rewrite (handle_tx_raises self tx e Hl); simpl. split; auto; lia.
  - destruct (handle_block_run now self block) as (-> & _). split; auto; lia.
  - destruct fetched; simpl; split; auto; lia.
  - destruct interval; simpl; split; auto; lia.
Qed.

Lemma run_ops_whales (ops : list Op) :
  forall self,
    forallb keeps_threshold ops = true ->
    _whale_count (fst (run_ops ops self))
    = _whale_count self
      + Z.of_nat (List.length (filter (is_whale_at (threshold_btc self)) (utx_of ops))).
Proof.
  induction ops as [|op rest IH]; intros self Hk.
  - simpl; lia.
  - simpl in Hk. apply andb_true_iff in Hk as [Hop Hrest].
    rewrite run_ops_cons; cbn [fst].
    destruct (apply_op_keeps_threshold self op Hop) as [Hthr Hw].
    rewrite (IH _ Hrest), Hthr, Hw.
    rewrite (utx_of_cons op rest), filter_app, length_app, Nat2Z.inj_add.
    lia.
Qed.

(** X6: when no call changes the threshold during an interval, the
    [whales] field of the summary that closes it is the number of
    processed transactions whose value meets that threshold. *)
Theorem summary_whales_field
  (self : WhaleWatch) (ops : list Op) (now : float) (d : SummaryData) :
  interval_start self ->
  forallb keeps_threshold ops = true ->
  In (Summary d) (calls (summary_cycle now (fst (run_ops ops self)))) ->
  s_whales d
  = Z.of_nat (List.length (filter (is_whale_at (threshold_btc self)) (utx_of ops))).
Proof.
  intros Hstart Hk Hin.
  apply interval_start_zero in Hstart as (_ & _ & Hw0).
  apply summary_cycle_emits in Hin as (_ & _ & Hd).
  apply summary_data_inv in Hd as (_ & Hw & _).
  rewrite Hw, (run_ops_whales ops self Hk), Hw0. lia.
Qed.

Lemma summary_whales_field_witness : s_whales Ex.interval_summary = 2.
Proof.
  apply (summary_whales_field (Ex.watch (Some broadcast_callback))
           Ex.interval_ops Ex.now Ex.interval_summary).
  - apply start_init.
  - reflexivity.
  - vm_compute. left. reflexivity.
Defined.

Lemma reachable_counters_ok (self : WhaleWatch) :
  reachable self -> counters_ok self.
Proof.
  intros H; induction H.
  - unfold counters_ok; simpl; lia.
  - now apply apply_op_counters_ok.
  - apply summary_cycle_counters_ok.
Qed.

(** X7: every summary emitted from a state the object can reach reports
    at least one transaction, and a whale count between 0 and the
    transaction count. *)
Theorem summary_fields_bounded (self : WhaleWatch) (now : float) (d : SummaryData) :
  reachable self ->
  In (Summary d) (calls (summary_cycle now self)) ->
  1 <= s_count d /\ 0 <= s_whales d <= s_count d /\ s_timestamp d = now.
Proof.
  intros Hr Hin.
  apply reachable_counters_ok in Hr. unfold counters_ok in Hr.
  apply summary_cycle_emits in Hin as (Hc & _ & Hd).
  apply summary_data_inv in Hd as (-> & -> & -> & _).
  repeat split; lia.
Qed.

Lemma summary_fields_bounded_witness :
  1 <= s_count Ex.interval_summary
  /\ 0 <= s_whales Ex.interval_summary <= s_count Ex.interval_summary
  /\ s_timestamp Ex.interval_summary = Ex.now.
Proof.
  apply (summary_fields_bounded
           (after (apply_op (after (apply_op (after (apply_op
              (Ex.watch (Some broadcast_callback))
              (Utx (Ex.tx_btc 50)))) (Utx (Ex.tx_btc 150)))) (Utx (Ex.tx_btc 100))))
           Ex.now Ex.interval_summary).
  - repeat apply reach_op. apply reach_init.
  - vm_compute. left. reflexivity.
Defined.

(** ** The summary loop, again *)

(** X8: a summary cycle reports an interval once: until another
    transaction is processed, the following cycle emits nothing and ends
    normally. *)
Theorem no_double_reporting
  (self : WhaleWatch) (now1 now2 : float) (ops : list Op) :
  filter processed (utx_of ops) = [] ->
  let r := summary_cycle now2 (fst (run_ops ops (after (summary_cycle now1 self)))) in
  calls r = [] /\ raised r = None.
Proof.
  intros Hnone r. subst r.
  destruct (run_ops_counters ops (after (summary_cycle now1 self))) as [Hc _].
  rewrite Hnone in Hc. rewrite summary_cycle_after in *. simpl in Hc.
  unfold summary_cycle. rewrite Hc. cbn. split; reflexivity.
Qed.

Lemma no_double_reporting_witness :
  calls (summary_cycle Ex.now
           (fst (run_ops [NewBlock Ex.now (JDict []); PriceTick None]
                   (after (summary_cycle Ex.now
                             (Ex.at_wake (Some broadcast_callback) Ex.interval_ops))))))
  = [].
Proof.
  exact (proj1 (no_double_reporting
                  (Ex.at_wake (Some broadcast_callback) Ex.interval_ops)
                  Ex.now Ex.now [NewBlock Ex.now (JDict []); PriceTick None]
                  eq_refl)).
Defined.

Lemma of_int_raises (z : Z) (e : exn) :
  PyFloat.of_int z = Raise e -> e = OverflowError.
Proof.
  unfold PyFloat.of_int.
  destruct (binary_normalize _ _ _ _ _); try discriminate. now intros [= <-].
Qed.



Lemma apply_op_stop (self : WhaleWatch) (op : Op) :
  _stop_event self = true -> _stop_event (after (apply_op self op)) = true.
Proof.
  intros H. destruct op; simpl; auto.
  - destruct (handle_tx_same_config self tx) as (_ & _ & _ & _ & ->). exact H.
  - now destruct (handle_block_run now self block) as (-> & _).
  - now destruct fetched.
  - now destruct threshold, interval.
Qed.

Lemma run_ops_stop (ops : list Op) :
  forall self,
    _stop_event self = true \/ In Stop ops ->
    _stop_event (fst (run_ops ops self)) = true.
Proof.
  induction ops as [|op rest IH]; intros self H.
  - destruct H as [H|[]]. exact H.
  - rewrite run_ops_cons; cbn [fst]. apply IH.
    destruct H as [H|[->|H]]; auto.
    left. now apply apply_op_stop.
Qed.

Lemma summary_loop_stopped (schedule : list (list Op * float)) (self : WhaleWatch) :
  _stop_event self = true -> _summary_loop schedule self = (self, [], None).
Proof. intros H. destruct schedule as [|[ops now] rest]; simpl; now rewrite ?H. Qed.

(** X10: the stop flag is read at the top of the loop only.  A [stop]
    that arrives while the summary thread sleeps (the interval being one
    that [time.sleep] accepts) lets that one cycle run, with its
    emission, and the loop ends before the next: whatever the rest of
    the schedule holds is never reached. *)
Theorem stop_during_sleep
  (self : WhaleWatch) (ops : list Op) (now : float)
  (rest : list (list Op * float)) :
  _stop_event self = false ->
  time_sleep (summary_interval self) = None ->
  In Stop ops ->
  let r := summary_cycle now (fst (run_ops ops self)) in
  _summary_loop ((ops, now) :: rest) self
  = (after r, snd (run_ops ops self) ++ calls r, raised r).
Proof.
  intros Hstop Hsleep Hin r.
  cbn [_summary_loop]. rewrite Hstop, Hsleep.
  pose proof (run_ops_stop ops self (or_intror Hin)) as Hset.
  destruct (run_ops ops self) as [self1 evs1]; cbn [fst snd] in *.
  fold r. destruct (raised r) as [e|] eqn:Hr; [reflexivity|].
  rewrite summary_loop_stopped.
  - now rewrite app_nil_r.
  - subst r. now rewrite summary_cycle_after.
Qed.

Lemma stop_during_sleep_witness :
  _summary_loop [(Ex.interval_ops ++ [Stop], Ex.now); (Ex.interval_ops, Ex.now)]
    (Ex.watch (Some broadcast_callback))
  = (_reset_stats (stop (Ex.watch (Some broadcast_callback))),
     snd (run_ops Ex.interval_ops (Ex.watch (Some broadcast_callback)))
       ++ [Summary Ex.interval_summary],
     None).
Proof.
  exact (stop_during_sleep (Ex.watch (Some broadcast_callback))
           (Ex.interval_ops ++ [Stop]) Ex.now [(Ex.interval_ops, Ex.now)]
           eq_refl eq_refl (or_intror (or_intror (or_intror (or_introl eq_refl))))).
Defined.

Lemma apply_op_block_events (self : WhaleWatch) (op : Op) :
  is_block_op op = false ->
  filter (fun ev => negb (is_block_event ev)) (calls (apply_op self op))
  = calls (apply_op self op).
Proof.
  destruct op; simpl; try discriminate; intros _; auto.
  destruct (tx_locals tx) as [l|e] eqn:Hl.
  - destruct (handle_tx_counters self tx l Hl) as [_ ->].
    destruct (callback self); [|reflexivity].
    destruct (PyFloat.ge _ _); reflexivity.
  - now rewrite (handle_tx_raises self tx e Hl).
Qed.

Lemma handle_block_only_blocks (now : float) (self : WhaleWatch) (block : JValue) :
  filter (fun ev => negb (is_block_event ev)) (calls (_handle_new_block now self block))
  = [].
Proof.
  unfold _handle_new_block.
  destruct block; simpl; auto. destruct (callback self); reflexivity.
Qed.

(** X11: block messages touch nothing: taking them out of a sequence of
    calls leaves the object as it ends up, and leaves of the emitted
    events exactly those that are not block events, in the same order. *)
Theorem blocks_leave_no_trace (ops : list Op) :
  forall self,
    let others := filter (fun op => negb (is_block_op op)) ops in
    fst (run_ops others self) = fst (run_ops ops self)
    /\ snd (run_ops others self)
       = filter (fun ev => negb (is_block_event ev)) (snd (run_ops ops self)).
Proof.
  induction ops as [|op rest IH]; intros self; [split; reflexivity|].
  cbn zeta. cbn [filter].
  destruct (is_block_op op) eqn:Hop; cbn [negb].
  - destruct op; try discriminate.
    rewrite (run_ops_cons (NewBlock now block)); cbn [fst snd apply_op].
    destruct (handle_block_run now self block) as (-> & _).
    rewrite filter_app, handle_block_only_blocks. apply IH.
  - rewrite !run_ops_cons; cbn [fst snd].
    rewrite filter_app, (apply_op_block_events self op Hop).
    destruct (IH (after (apply_op self op))) as [-> ->]. split; reflexivity.
Qed.

(** ** Configuration, again *)

(** X12: two reconfigurations in a row amount to one that takes, for each
    parameter, the later value given; setting both parameters at once is
    the same as setting them one after the other, in either order. *)
Theorem update_config_compose
  (self : WhaleWatch) (t1 t2 : option float) (i1 i2 : option Z) :
  update_config (update_config self t1 i1) t2 i2
  = update_config self (or_else t2 t1) (or_else i2 i1)
  /\ (forall t i,
        update_config self (Some t) (Some i)
        = update_interval (update_threshold self t) i
        /\ update_config self (Some t) (Some i)
           = update_threshold (update_interval self i) t).
Proof.
  split; [destruct t1, t2, i1, i2; reflexivity|].
  intros t i; split; reflexivity.
Qed.

(** ** The price thread *)

Section Price.

Variable float_of_str : string -> option float.

Lemma with_price_same (self : WhaleWatch) :
  with_price self (_price_usd self) = self.
Proof. now destruct self. Qed.

Lemma price_tick_with_price (fetched : option float) (self : WhaleWatch) :
  price_tick fetched self
  = with_price self (last_price [fetched] (_price_usd self)).
Proof. destruct fetched; simpl; [reflexivity | now rewrite with_price_same]. Qed.

(** X13: [_fetch_price] gives no price, and raises nothing, on a failed
    request and on every status other than 200.  On a 200 whose body
    lacks the price (no ["bitcoin"] entry, or none for ["usd"]) it raises
    [TypeError], which it does not catch; on a body that carries a float
    it returns that float. *)
Theorem fetch_price_outcomes :
  _fetch_price float_of_str RequestException = Ok None
  /\ (forall status data,
        status <> 200 -> _fetch_price float_of_str (Response status data) = Ok None)
  /\ (forall d b,
        dict_get d "bitcoin" (JDict []) = JDict b ->
        dict_get b "usd" JNone = JNone ->
        _fetch_price float_of_str (Response 200 (JDict d)) = Raise TypeError)
  /\ (forall d b p,
        dict_get d "bitcoin" (JDict []) = JDict b ->
        dict_get b "usd" JNone = JFloat p ->
        _fetch_price float_of_str (Response 200 (JDict d)) = Ok (Some p)).
Proof.
  split; [reflexivity|]. split; [|split].
  - intros status data H. simpl. apply Z.eqb_neq in H. now rewrite H.
  - intros d b Hb Hu. simpl. rewrite Hb; simpl. now rewrite Hu.
  - intros d b p Hb Hu. simpl. rewrite Hb; simpl. now rewrite Hu.
Qed.

Lemma price_loop_returns (outcomes : list HttpResult) :
  forall self,
    _stop_event self = false ->
    forallb (fetch_returns float_of_str) outcomes = true ->
    _price_loop float_of_str outcomes self
    = (with_price self
         (last_price (map (fetched_of float_of_str) outcomes) (_price_usd self)),
       None).
Proof.
  induction outcomes as [|r rest IH]; intros self Hstop Hall.
  - simpl. now rewrite with_price_same.
  - simpl in Hall. apply andb_true_iff in Hall as [Hr Hrest].
    cbn [_price_loop]. rewrite Hstop.
    unfold fetch_returns in Hr. cbn [map]. unfold fetched_of at 1.
    destruct (_fetch_price float_of_str r) as [price|e]; [|discriminate].
    rewrite IH; auto.
    + rewrite price_tick_with_price. reflexivity.
    + now destruct price.
Qed.

(** X14: as long as every request outcome lets [_fetch_price] return,
    the price loop leaves cached the last price fetched (the earlier
    value if no fetch gave one) and touches nothing else; failed
    requests never erase a cached price. *)
Theorem price_loop_keeps_last_price
  (outcomes : list HttpResult) (self : WhaleWatch) :
  _stop_event self = false ->
  forallb (fetch_returns float_of_str) outcomes = true ->
  _price_loop float_of_str outcomes self
  = (with_price self
       (last_price (map (fetched_of float_of_str) outcomes) (_price_usd self)),
     None)
  /\ (forall p, _price_usd self = Some p ->
        _price_usd (fst (_price_loop float_of_str outcomes self)) <> None).
Proof.
  intros Hstop Hall. rewrite (price_loop_returns outcomes self Hstop Hall).
  split; [reflexivity|]. cbn [fst with_price _price_usd].
  intros p ->. clear.
  generalize p. induction (map (fetched_of float_of_str) outcomes) as [|f l IH];
    intros q; simpl; [discriminate|].
  destruct f; apply IH.
Qed.

(** X15: the first outcome on which [_fetch_price] raises ends the price
    thread with that exception: the cached price stays what the earlier
    fetches made it, and no later response is ever read. *)
Theorem price_loop_dies_on_raise
  (before later : list HttpResult) (r : HttpResult) (e : exn)
  (self : WhaleWatch) :
  _stop_event self = false ->
  forallb (fetch_returns float_of_str) before = true ->
  _fetch_price float_of_str r = Raise e ->
  _price_loop float_of_str (before ++ r :: later) self
  = (with_price self
       (last_price (map (fetched_of float_of_str) before) (_price_usd self)),
     Some e).
Proof.
  revert self.
  induction before as [|r0 rest IH]; intros self Hstop Hall Hr.
  - cbn [app _price_loop]. rewrite Hstop, Hr. simpl. now rewrite with_price_same.
  - simpl in Hall. apply andb_true_iff in Hall as [Hr0 Hrest].
    cbn [app _price_loop]. rewrite Hstop.
    unfold fetch_returns in Hr0. cbn [map]. unfold fetched_of at 1.
    destruct (_fetch_price float_of_str r0) as [price|e0]; [|discriminate].
    rewrite IH; auto.
    + rewrite price_tick_with_price. reflexivity.
    + now destruct price.
Qed.

End Price.

Lemma fetch_price_outcomes_witness :
  _fetch_price Ex2.parse_fifty (Response 200 (JDict [("bitcoin", JDict [])]))
  = Raise TypeError.
Proof.
  exact (proj1 (proj2 (proj2 (fetch_price_outcomes Ex2.parse_fifty)))
           [("bitcoin", JDict [])] [] eq_refl eq_refl).
Defined.

Lemma price_loop_keeps_last_price_witness :
  _price_usd (fst (_price_loop Ex2.parse_fifty
                     [Response 200 (JDict [("bitcoin", JDict [("usd", JStr "50")])]);
                      RequestException; Response 503 JNone]
                     (Ex.watch None)))
  = Some (PyFloat.lit 50).
Proof.
  pose proof (proj1 (price_loop_keeps_last_price Ex2.parse_fifty
                [Response 200 (JDict [("bitcoin", JDict [("usd", JStr "50")])]);
                 RequestException; Response 503 JNone]
                (Ex.watch None) eq_refl eq_refl)) as H.
  rewrite H. reflexivity.
Defined.

Lemma price_loop_dies_on_raise_witness :
  _price_loop Ex2.parse_fifty
    ([Response 200 (JDict [("bitcoin", JDict [("usd", JStr "50")])])]
       ++ Response 200 (JDict []) ::
       [Response 200 (JDict [("bitcoin", JDict [("usd", JFloat (PyFloat.lit 60))])])])
    (Ex.watch None)
  = (with_price (Ex.watch None) (Some (PyFloat.lit 50)), Some TypeError).
Proof.
  exact (price_loop_dies_on_raise Ex2.parse_fifty
           [Response 200 (JDict [("bitcoin", JDict [("usd", JStr "50")])])]
           [Response 200 (JDict [("bitcoin", JDict [("usd", JFloat (PyFloat.lit 60))])])]
           (Response 200 (JDict [])) TypeError (Ex.watch None)
           eq_refl eq_refl eq_refl).
Defined.

(** ** Incoming messages *)

(** X16: [_on_message] passes over what it does not know.  A decoded
    record whose ["op"] is neither ["utx"] nor ["block"] (or is missing,
    or is no string) changes nothing, emits nothing and raises nothing;
    a decoded value that is no record raises [AttributeError]. *)
Theorem on_message_unknown_ignored (now : float) (self : WhaleWatch) :
  (forall d,
     dict_get d "op" JNone <> JStr "utx" ->
     dict_get d "op" JNone <> JStr "block" ->
     _on_message now self (JDict d) = mkRun self [] None)
  /\ (forall data,
        (forall d, data <> JDict d) ->
        _on_message now self data = mkRun self [] (Some AttributeError)).
Proof.
  split.
  - intros d Hu Hb. unfold _on_message; simpl.
    destruct (dict_get d "op" JNone) as [| | | |op| |]; try reflexivity.
    destruct (String.eqb op "utx") eqn:H1.
    + apply String.eqb_eq in H1. subst op. now contradiction Hu.
    + destruct (String.eqb op "block") eqn:H2; [|reflexivity].
      apply String.eqb_eq in H2. subst op. now contradiction Hb.
  - intros data H. destruct data; try reflexivity. now contradiction (H d).
Qed.

Lemma on_message_unknown_ignored_witness :
  _on_message Ex.now (Ex.watch None) (JDict [("op", JStr "pong")])
  = mkRun (Ex.watch None) [] None.
Proof.
  apply (proj1 (on_message_unknown_ignored Ex.now (Ex.watch None)));
    discriminate.
Defined.

(** X17: a ["utx"] message that carries no ["x"] (or an empty one) is
    handled as a transaction without outputs: it is counted, adds
    nothing to the total, and is a whale exactly when the threshold is
    zero or less. *)
Theorem utx_without_payload_counted
  (now : float) (self : WhaleWatch) (d : Dict) :
  dict_get d "op" JNone = JStr "utx" ->
  dict_get d "x" (JDict []) = JDict [] ->
  let r := _on_message now self (JDict d) in
  _unconfirmed_count (after r) = _unconfirmed_count self + 1
  /\ _total_value_sat (after r) = _total_value_sat self
  /\ _whale_count (after r)
     = (if PyFloat.ge PyFloat.zero (threshold_btc self)
        then _whale_count self + 1 else _whale_count self).
Proof.
  intros Hop Hx r. subst r.
  rewrite (on_message_utx now self d (JDict []) Hop Hx).
  assert (Hl : tx_locals (JDict [])
               = Ok (mkTxLocals 0 PyFloat.zero JNone JNone JNone)) by reflexivity.
  destruct (handle_tx_counters self (JDict []) _ Hl) as [Hafter _].
  cbn zeta in Hafter. rewrite Hafter.
  unfold count_tx;
    cbn [_unconfirmed_count _total_value_sat _whale_count total_sat total_btc].
  repeat split; lia.
Qed.

Lemma utx_without_payload_counted_witness :
  _unconfirmed_count
    (after (_on_message Ex.now (Ex.watch None) (JDict [("op", JStr "utx")]))) = 1.
Proof.
  exact (proj1 (utx_without_payload_counted Ex.now (Ex.watch None)
                  [("op", JStr "utx")] eq_refl eq_refl)).
Defined.

(** ** Fan-out, again *)

Lemma broadcast_all_map (evs : list Event) :
  forall qs,
    broadcast_all evs qs
    = map (fun q => fold_left (fun q ev => delivered ev q) evs q) qs.
Proof.
  unfold broadcast_all.
  induction evs as [|ev rest IH]; intros qs; simpl.
  - now rewrite map_id.
  - rewrite broadcast_event_map; cbn [fst]. rewrite IH, map_map. reflexivity.
Qed.

Lemma delivered_all_items (evs : list Event) :
  forall q,
    let q' := fold_left (fun q ev => delivered ev q) evs q in
    maxsize q' = maxsize q
    /\ items q' = items q ++ firstn (room (List.length evs) q) evs.
Proof.
  induction evs as [|ev rest IH]; intros q; cbn zeta.
  - simpl. rewrite firstn_nil, app_nil_r. auto.
  - cbn [fold_left]. destruct (IH (delivered ev q)) as [Hm Hi].
    rewrite Hm, Hi. clear IH Hm Hi.
    unfold delivered, room, full, qsize.
    destruct (0 <? maxsize q) eqn:Hpos; cbn [andb].
    + destruct (maxsize q <=? Z.of_nat (List.length (items q))) eqn:Hfull.
      * rewrite Hpos. apply Z.leb_le in Hfull.
        replace (Z.to_nat (maxsize q - Z.of_nat (List.length (items q)))) with 0%nat
          by lia.
        simpl. auto.
      * cbn [maxsize items]. rewrite Hpos. apply Z.leb_gt in Hfull.
        rewrite length_app; cbn [List.length].
        replace (Z.to_nat (maxsize q - Z.of_nat (List.length (items q))))
          with (S (Z.to_nat (maxsize q - Z.of_nat (List.length (items q) + 1))))
          by lia.
        cbn [firstn]. rewrite <- app_assoc. auto.
    + cbn [maxsize items]. rewrite Hpos. cbn [List.length firstn].
      rewrite <- app_assoc. auto.
Qed.

(** X18: a bounded queue keeps the oldest events and drops the newest.
    After any run of broadcasts each queue holds what it held, followed
    by the first events of the run, as many as it had room for, in
    publication order; an unbounded queue holds them all.  No queue ever
    loses or reorders what it already held. *)
Theorem broadcast_keeps_oldest (evs : list Event) (qs : list Queue) :
  List.length (broadcast_all evs qs) = List.length qs
  /\ forall i q,
       nth_error qs i = Some q ->
       exists q',
         nth_error (broadcast_all evs qs) i = Some q'
         /\ maxsize q' = maxsize q
         /\ items q' = items q ++ firstn (room (List.length evs) q) evs.
Proof.
  rewrite broadcast_all_map. split; [apply length_map|].
  intros i q Hq.
  exists (fold_left (fun q ev => delivered ev q) evs q).
  split; [now apply map_nth_error|]. apply delivered_all_items.
Qed.

Lemma broadcast_keeps_oldest_witness :
  exists q',
    nth_error (broadcast_all [Ex2.config_event 1 1; Ex2.config_event 2 2;
                              Ex2.config_event 3 3]
                 [mkQueue 2 []]) 0 = Some q'
    /\ maxsize q' = 2
    /\ items q' = [] ++ [Ex2.config_event 1 1; Ex2.config_event 2 2].
Proof.
  exact (proj2 (broadcast_keeps_oldest
                  [Ex2.config_event 1 1; Ex2.config_event 2 2; Ex2.config_event 3 3]
                  [mkQueue 2 []])
           0%nat (mkQueue 2 []) eq_refl).
Defined.

Lemma stream_frames_drain (evs : list Event) :
  forall (m : Z) (k : nat),
    stream_frames (List.length evs + k) (mkQueue m evs)
    = map EventFrame evs ++ repeat Keepalive k.
Proof.
  induction evs as [|ev rest IH]; intros m k.
  - simpl. induction k as [|k IHk]; simpl; [reflexivity|]. now rewrite IHk.
  - simpl. now rewrite IH.
Qed.

(** X19: a client that connects before a run of broadcasts is then sent
    the first hundred events of the run, oldest first and each once, and
    keepalives after that. *)
Theorem new_client_receives_in_order
  (h : nat) (evs : list Event) (reg : Registry) (k : nat) :
  let qs := map snd (snd (stream_connect h reg)) in
  exists q,
    nth_error (broadcast_all evs qs) (List.length reg) = Some q
    /\ stream_frames (List.length (firstn 100 evs) + k) q
       = map EventFrame (firstn 100 evs) ++ repeat Keepalive k.
Proof.
  cbn zeta. unfold stream_connect; cbn [snd]. rewrite map_app; cbn [map snd].
  rewrite broadcast_all_map.
  exists (fold_left (fun q ev => delivered ev q) evs new_client_queue).
  split.
  - apply map_nth_error.
    rewrite nth_error_app2; rewrite length_map; [|lia].
    now rewrite Nat.sub_diag.
  - destruct (delivered_all_items evs new_client_queue) as [_ Hi].
    destruct (fold_left _ evs new_client_queue) as [m its].
    cbn [items] in Hi. subst its.
    cbn [app]. unfold room, new_client_queue, qsize; cbn.
    apply stream_frames_drain.
Qed.

Lemma publish_map (ev : Event) (reg : Registry) :
  publish ev reg = map (fun hq => (fst hq, delivered ev (snd hq))) reg.
Proof.
  unfold publish. rewrite broadcast_event_map; cbn [fst].
  induction reg as [|[h q] rest IH]; simpl; [reflexivity|]. now rewrite IH.
Qed.

Lemma stream_close_absent (h : nat) (reg : Registry) :
  ~ In h (map fst reg) -> stream_close h reg = reg.
Proof.
  induction reg as [|[h' q] rest IH]; simpl; intros H; [reflexivity|].
  destruct (Nat.eqb h' h) eqn:E.
  - apply Nat.eqb_eq in E. tauto.
  - rewrite IH; tauto.
Qed.

(** X20: connecting and disconnecting a client cancel out, and a
    disconnect disturbs nobody else.  With [h] the identity of a queue
    not yet in the list: removing the queue just added gives the list
    back; removing a queue that is not in the list changes nothing;
    every other client keeps its queue; and a broadcast reaches the
    remaining clients the same whether it comes before or after the
    disconnect. *)
Theorem stream_connect_close (h : nat) (reg : Registry) :
  ~ In h (map fst reg) ->
  stream_close h (snd (stream_connect h reg)) = reg
  /\ stream_close h reg = reg
  /\ (forall h' reg', h' <> h -> queue_of h' (stream_close h reg') = queue_of h' reg')
  /\ (forall ev reg',
        stream_close h (publish ev reg') = publish ev (stream_close h reg')).
Proof.
  intros Hfresh. split; [|split; [now apply stream_close_absent|split]].
  - unfold stream_connect; cbn [snd].
    induction reg as [|[h' q] rest IH]; simpl.
    + now rewrite Nat.eqb_refl.
    + simpl in Hfresh. destruct (Nat.eqb h' h) eqn:E.
      * apply Nat.eqb_eq in E. tauto.
      * rewrite IH; tauto.
  - intros h' reg' Hne.
    induction reg' as [|[h0 q] rest IH]; simpl; [reflexivity|].
    destruct (Nat.eqb h0 h) eqn:E; simpl.
    + apply Nat.eqb_eq in E. subst h0.
      destruct (Nat.eqb h h') eqn:E'; [|reflexivity].
      apply Nat.eqb_eq in E'. congruence.
    + destruct (Nat.eqb h0 h'); [reflexivity | exact IH].
  - intros ev reg'. rewrite !publish_map.
    induction reg' as [|[h0 q] rest IH]; simpl; [reflexivity|].
    destruct (Nat.eqb h0 h); simpl; [reflexivity | now rewrite IH].
Qed.

Lemma stream_connect_close_witness :
  stream_close 7 (snd (stream_connect 7 [(3%nat, new_client_queue)]))
  = [(3%nat, new_client_queue)].
Proof.
  apply (stream_connect_close 7 [(3%nat, new_client_queue)]).
  simpl. intros [H|[]]. discriminate.
Defined.

(** ** The configuration endpoint *)

Section ConfigEndpoint.

Variable float_of_str : string -> option float.

Lemma convert_threshold_raises (v : JValue) (e : exn) :
  convert_threshold float_of_str v = Raise e ->
  e = TypeError \/ e = OverflowError.
Proof.
  destruct v as [|b|z|f|s|l|d]; simpl; try discriminate;
    try (intros [= <-]; auto).
  - destruct (PyFloat.of_int z) as [f|e'] eqn:Hz; [discriminate|].
    apply of_int_raises in Hz. subst e'. intros [= <-]; auto.
  - destruct (float_of_str s); discriminate.
Qed.

(** X21: values that do not parse are passed over in silence.  A form
    post whose threshold and interval are both malformed strings changes
    neither parameter, and is answered like a successful update: the
    current values are returned and a config event carrying them is put
    on every queue that is not full. *)
Theorem config_post_ignores_malformed
  (app : App) (w : WhaleWatch) (st si : string) :
  watcher app = Some w ->
  float_of_str st = None ->
  PyInt.of_string si = Raise ValueError ->
  config_endpoint_post float_of_str app None [("threshold", st); ("interval", si)]
  = Ok (mkApp (Some w)
          (map (delivered (Config (mkConfigData (threshold_btc w) (summary_interval w))))
             (client_queues app)),
        Some (threshold_btc w, summary_interval w)).
Proof.
  intros Hw Hst Hsi.
  unfold config_endpoint_post. rewrite Hw.
  cbn [request_data form_data map fst snd py_get dict_get bind String.eqb Ascii.eqb
       Bool.eqb].
  cbn [convert_threshold py_float]. rewrite Hst. cbn [bind].
  cbn [convert_interval PyInt.int]. rewrite Hsi. cbn [bind].
  unfold config_post. rewrite Hw. cbn [update_config threshold_btc summary_interval].
  now rewrite broadcast_event_map.
Qed.

(** X22: what a successful post answers is what is in force afterwards.
    The values returned are those a following [GET] reads and those of
    the config event put on the queues; the watcher keeps its counters,
    its cached price and its callback through the update. *)
Theorem config_post_effective
  (app app' : App) (json : option JValue) (form : list (string * string))
  (t : float) (i : Z) :
  config_endpoint_post float_of_str app json form = Ok (app', Some (t, i)) ->
  config_get app' = Some (t, i)
  /\ client_queues app'
     = map (delivered (Config (mkConfigData t i))) (client_queues app)
  /\ exists w w',
       watcher app = Some w /\ watcher app' = Some w'
       /\ threshold_btc w' = t /\ summary_interval w' = i
       /\ _unconfirmed_count w' = _unconfirmed_count w
       /\ _total_value_sat w' = _total_value_sat w
       /\ _whale_count w' = _whale_count w
       /\ _price_usd w' = _price_usd w
       /\ callback w' = callback w.
Proof.
  unfold config_endpoint_post.
  destruct (watcher app) as [w|] eqn:Hw; [|discriminate].
  destruct (py_get (request_data json form) "threshold" JNone) as [nt|];
    cbn [bind]; [|discriminate].
  destruct (py_get (request_data json form) "interval" JNone) as [ni|];
    cbn [bind]; [|discriminate].
  destruct (convert_threshold float_of_str nt) as [tv|]; cbn [bind]; [|discriminate].
  destruct (convert_interval ni) as [iv|]; cbn [bind]; [|discriminate].
  unfold config_post. rewrite Hw. intros [= <- <- <-].
  unfold config_get; cbn [watcher client_queues].
  split; [reflexivity|]. split; [now rewrite broadcast_event_map|].
  exists w, (update_config w tv iv).
  destruct tv, iv; simpl; repeat split; reflexivity.
Qed.

(** X23: the two ways a conversion can fail differ.  An interval that
    is a JSON array raises [TypeError] (unless the threshold conversion
    raised first): the request fails before [update_config] is reached,
    so that nothing is applied or broadcast, not even a valid threshold
    sent along.  A threshold string that merely does not parse is passed
    over, and the interval sent with it is applied all the same. *)
Theorem config_post_conversion_errors (app : App) (w : WhaleWatch) :
  watcher app = Some w ->
  (forall d l form,
     d <> [] ->
     dict_get d "interval" JNone = JList l ->
     exists e,
       config_endpoint_post float_of_str app (Some (JDict d)) form = Raise e
       /\ (e = TypeError \/ e = OverflowError))
  /\ (forall st si i,
        float_of_str st = None ->
        PyInt.of_string si = Ok i ->
        config_endpoint_post float_of_str app None
          [("threshold", st); ("interval", si)]
        = Ok (mkApp (Some (update_interval w i))
                (map (delivered (Config (mkConfigData (threshold_btc w) i)))
                   (client_queues app)),
              Some (threshold_btc w, i))).
Proof.
  intros Hw. split.
  - intros d l form Hd Hi. unfold config_endpoint_post. rewrite Hw.
    assert (Hdata : request_data (Some (JDict d)) form = JDict d).
    { unfold request_data; simpl. destruct d; [contradiction | reflexivity]. }
    rewrite Hdata. cbn [py_get bind]. rewrite Hi.
    destruct (convert_threshold float_of_str (dict_get d "threshold" JNone))
      as [tv|e] eqn:Ht; cbn [bind].
    + exists TypeError. split; [reflexivity | auto].
    + exists e. split; [reflexivity|]. now apply convert_threshold_raises in Ht.
  - intros st si i Hst Hsi.
    unfold config_endpoint_post. rewrite Hw.
    cbn [request_data form_data map fst snd py_get dict_get bind String.eqb
         Ascii.eqb Bool.eqb].
    cbn [convert_threshold py_float]. rewrite Hst. cbn [bind].
    cbn [convert_interval PyInt.int]. rewrite Hsi. cbn [bind].
    unfold config_post. rewrite Hw.
    cbn [update_config threshold_btc summary_interval set_interval].
    now rewrite broadcast_event_map.
Qed.

End ConfigEndpoint.

Lemma config_post_ignores_malformed_witness :
  config_endpoint_post Ex2.parse_fifty (Ex2.app [new_client_queue]) None
    [("threshold", "fifty"); ("interval", "1.5")]
  = Ok (Ex2.app [mkQueue 100 [Ex2.config_event 100 60]],
        Some (PyFloat.lit 100, 60)).
Proof.
  exact (config_post_ignores_malformed Ex2.parse_fifty
           (Ex2.app [new_client_queue]) (Ex.watch (Some broadcast_callback))
           "fifty" "1.5" eq_refl eq_refl eq_refl).
Defined.

Lemma config_post_effective_witness :
  config_get (mkApp (Some (update_config (Ex.watch (Some broadcast_callback))
                             (Some (PyFloat.lit 50)) (Some 30)))
                [mkQueue 100 [Ex2.config_event 50 30]])
  = Some (PyFloat.lit 50, 30).
Proof.
  exact (proj1 (config_post_effective Ex2.parse_fifty
                  (Ex2.app [new_client_queue])
                  (mkApp (Some (update_config (Ex.watch (Some broadcast_callback))
                                  (Some (PyFloat.lit 50)) (Some 30)))
                     [mkQueue 100 [Ex2.config_event 50 30]])
                  (Some (JDict [("threshold", JStr "50"); ("interval", JStr " 30 ")]))
                  [] (PyFloat.lit 50) 30 eq_refl)).
Defined.

Lemma config_post_conversion_errors_witness :
  (exists e,
      config_endpoint_post Ex2.parse_fifty (Ex2.app [new_client_queue])
        (Some (JDict [("threshold", JInt 50); ("interval", JList [JInt 30])])) []
      = Raise e
      /\ (e = TypeError \/ e = OverflowError))
  /\ config_endpoint_post Ex2.parse_fifty (Ex2.app [new_client_queue]) None
       [("threshold", "fifty"); ("interval", "30")]
     = Ok (mkApp (Some (update_interval (Ex.watch (Some broadcast_callback)) 30))
             [mkQueue 100 [Ex2.config_event 100 30]],
           Some (PyFloat.lit 100, 30)).
Proof.
  destruct (config_post_conversion_errors Ex2.parse_fifty
              (Ex2.app [new_client_queue]) (Ex.watch (Some broadcast_callback))
              eq_refl) as [Hraise Hpart].
  split.
  - apply (Hraise [("threshold", JInt 50); ("interval", JList [JInt 30])]
             [JInt 30] []); [discriminate | reflexivity].
  - exact (Hpart "fifty" "30" 30 eq_refl eq_refl).
Defined.

(** ** The sleep of the summary loop *)

Lemma time_sleep_negative (secs : Z) :
  -9223372036 <= secs < 0 -> time_sleep secs = Some ValueError.
Proof.
  intros H. unfold time_sleep.
  replace (secs <? -9223372036) with false by (symmetry; apply Z.ltb_ge; lia).
  replace (9223372036 <? secs) with false by (symmetry; apply Z.ltb_ge; lia).
  replace (secs <? 0) with true by (symmetry; apply Z.ltb_lt; lia).
  reflexivity.
Qed.

(** X24: nothing checks the interval: [update_config] stores a negative
    one as it stores any other, and the next iteration of the summary
    loop then ends the thread with [ValueError] at its sleep, before any
    snapshot: no cycle runs, the counters are left as they are and
    nothing is emitted. *)
Theorem negative_interval_ends_loop
  (self : WhaleWatch) (threshold : option float) (interval : Z)
  (ops : list Op) (now : float) (rest : list (list Op * float)) :
  -9223372036 <= interval < 0 ->
  _stop_event self = false ->
  summary_interval (update_config self threshold (Some interval)) = interval
  /\ _summary_loop ((ops, now) :: rest)
       (update_config self threshold (Some interval))
     = (update_config self threshold (Some interval), [], Some ValueError).
Proof.
  intros Hneg Hstop.
  split; [now destruct threshold|].
  cbn [_summary_loop].
  assert (Hs : _stop_event (update_config self threshold (Some interval)) = false)
    by (now destruct threshold).
  assert (Hi : summary_interval (update_config self threshold (Some interval))
               = interval) by (now destruct threshold).
  rewrite Hs, Hi, (time_sleep_negative interval Hneg). reflexivity.
Qed.

Lemma negative_interval_ends_loop_witness :
  _summary_loop [(Ex.interval_ops, Ex.now)]
    (update_config (Ex.watch (Some broadcast_callback)) None (Some (-5)))
  = (update_config (Ex.watch (Some broadcast_callback)) None (Some (-5)),
     [], Some ValueError).
Proof.
  refine (proj2 (negative_interval_ends_loop (Ex.watch (Some broadcast_callback))
                   None (-5) Ex.interval_ops Ex.now [] _ eq_refl)).
  lia.
Defined.
